(** * k8s-watchdog: the detect / track / remediate loop

    A shallow embedding of the watchdog's two source variants:

    - the variant that deletes a stuck pod ([shouldRestartPod], [restartPod]);
    - the variant that notifies an external endpoint
      ([isStuckInContainerCreating], [notifyAPI]).

    Both share [getEnv], [getPendingTimeout], [getCheckInterval] and the body
    of [checkPods]; they differ in the inspector, in the remediation call and
    in the wording of two log lines.

    Conventions.  Instants and durations are integers counting nanoseconds.
    A [time.Duration] is a 64-bit signed integer, so products wrap around and
    differences of instants saturate, as in Go; a [float64] is a binary64
    float of the kernel.  Whatever the environment
    decides (the listing, the clock, the outcome of a remediation call) is an
    explicit input of the function that consumes it; a function that reads
    the clock several times is given all its readings, in the order it takes
    them.  Log lines and API calls are collected, in program order, in a list
    of events. *)

From Stdlib Require Import ZArith Lia Ascii String.
From Stdlib Require Import Decimal DecimalString DecimalPos.
From Stdlib Require PrimFloat Uint63 FloatOps SpecFloat.
From stdpp Require Import gmap strings list fin_maps.

Open Scope string_scope.
Open Scope list_scope.
Open Scope Z_scope.

(** ** Go's [time] package: the part the watchdog uses *)

Module time.

Definition Duration : Type := Z.
Definition Time : Type := Z.

Definition minDuration : Duration := - 2 ^ 63.
Definition maxDuration : Duration := 2 ^ 63 - 1.

Definition Nanosecond : Duration := 1.
Definition Millisecond : Duration := 1000000.
Definition Second : Duration := 1000000000.
Definition Minute : Duration := 60 * Second.

(** Two's-complement wrap-around of a 64-bit signed integer. *)
Definition wrap64 (z : Z) : Z := (z + 2 ^ 63) mod 2 ^ 64 - 2 ^ 63.

(** [a * b] on [Duration]s: an int64 product. *)
Definition mul (a b : Duration) : Duration := wrap64 (a * b).

(** Clamping to the range of a [Duration]. *)
Definition saturate (z : Z) : Duration :=
  if z <? minDuration then minDuration
  else if maxDuration <? z then maxDuration
  else z.

(** [t.Sub(u)]: the duration [t - u], or the largest (smallest) duration when
    the difference does not fit. *)
Definition Sub (t u : Time) : Duration := saturate (t - u).

(** [time.Since(t)] is [time.Now().Sub(t)]; [reading] is what [time.Now()]
    returns to this call of [time.Since]. *)
Definition Since (reading : Time) (t : Time) : Duration := Sub reading t.

(** Go's conversion [float64(n)] of an int64. *)
Definition float64 (n : Z) : PrimFloat.float :=
  if n <? 0 then PrimFloat.opp (PrimFloat.of_uint63 (Uint63.of_Z (- n)))
  else PrimFloat.of_uint63 (Uint63.of_Z n).

(** [Duration.Seconds]: whole seconds plus the fraction, in floating point;
    Go's [/] and [%] on integers truncate toward zero. *)
Definition Seconds (d : Duration) : PrimFloat.float :=
  let sec := Z.quot d Second in
  let nsec := Z.rem d Second in
  PrimFloat.add (float64 sec)
    (PrimFloat.div (float64 nsec) (float64 1000000000)).

(** The clock as one call of a function sees it: [clock k] is what the
    call's reading number [k] of [time.Now()] returns, counting from 0. *)
Definition Clock : Type := nat -> Time.

End time.

(** ** Go's [strconv.Atoi] with a 64-bit [int] (the Dockerfile sets GOARCH=amd64)

    An optional sign, then one or more decimal digits and nothing else; a
    value outside the int64 range is a range error.  Integers are unbounded
    here; the range checks of the library are written out. *)

Module strconv.

Inductive NumError : Type :=
| ErrSyntax
| ErrRange.

Definition maxUint64 : Z := 2 ^ 64 - 1.

(** The value of a digit character, [None] for any other character. *)
Definition digit (c : ascii) : option Z :=
  let n := Z.of_N (N_of_ascii c) in
  if (48 <=? n) && (n <=? 57) then Some (n - 48) else None.

Definition isSign (c : ascii) : bool :=
  (Ascii.eqb c "+" || Ascii.eqb c "-")%bool.

(** The digit loop of [ParseUint], base 10, 64 bits, from the value [n]: it
    stops at the first character that is not a digit, or at the first digit
    that takes the value out of range. *)
Fixpoint parseDigits (n : Z) (s : string) : Z * option NumError :=
  match s with
  | EmptyString => (n, None)
  | String c rest =>
      match digit c with
      | None => (0, Some ErrSyntax)
      | Some d =>
          if maxUint64 <? n * 10 + d then (maxUint64, Some ErrRange)
          else parseDigits (n * 10 + d) rest
      end
  end.

Definition ParseUint (s : string) : Z * option NumError :=
  match s with
  | EmptyString => (0, Some ErrSyntax)
  | String _ _ => parseDigits 0 s
  end.

(** [ParseInt(s, 10, 0)]. *)
Definition ParseInt (s : string) : Z * option NumError :=
  match s with
  | EmptyString => (0, Some ErrSyntax)
  | String c rest =>
      let neg := Ascii.eqb c "-" in
      let body := if isSign c then rest else s in
      let '(un, err) := ParseUint body in
      match err with
      | Some ErrSyntax => (0, err)
      | _ =>
          if negb neg && (2 ^ 63 <=? un) then (2 ^ 63 - 1, Some ErrRange)
          else if neg && (2 ^ 63 <? un) then (- 2 ^ 63, Some ErrRange)
          else (if neg then - un else un, None)
      end
  end.

(** The digit loop of the fast path of [Atoi]: no range check, the inputs
    it is used on are too short to overflow. *)
Fixpoint fastDigits (n : Z) (s : string) : option Z :=
  match s with
  | EmptyString => Some n
  | String ch rest =>
      match digit ch with
      | Some d => fastDigits (n * 10 + d) rest
      | None => None
      end
  end.

(** The fast path of [Atoi], taken for inputs of 1 to 18 bytes. *)
Definition atoiFast (s : string) : Z * option NumError :=
  match s with
  | EmptyString => (0, Some ErrSyntax)
  | String c rest =>
      let body := if isSign c then rest else s in
      match body with
      | EmptyString => (0, Some ErrSyntax)
      | String _ _ =>
          match fastDigits 0 body with
          | None => (0, Some ErrSyntax)
          | Some n => (if Ascii.eqb c "-" then - n else n, None)
          end
      end
  end.

Definition Atoi (s : string) : Z * option NumError :=
  let sLen := String.length s in
  if (0 <? sLen)%nat && (sLen <? 19)%nat then atoiFast s else ParseInt s.

End strconv.

(** ** The process environment *)

Module os.

Definition Environ : Type := gmap string string.

(** [os.Getenv]: the value of the variable, or the empty string when it is
    not set. *)
Definition Getenv (env : Environ) (key : string) : string :=
  default "" (env !! key).

End os.

(** ** The orchestrator's types: the fields the watchdog reads or sets *)

Module metav1.

Record ListOptions : Type := { LabelSelector : string }.

Definition DeletionPropagation : Type := string.
Definition DeletePropagationForeground : DeletionPropagation := "Foreground".

(** Both fields are pointers in Go: [None] is the nil pointer. *)
Record DeleteOptions : Type := {
  GracePeriodSeconds : option Z;
  PropagationPolicy : option DeletionPropagation
}.

End metav1.

Module corev1.

Definition PodPhase : Type := string.
Definition PodPending : PodPhase := "Pending".
Definition PodRunning : PodPhase := "Running".
Definition PodSucceeded : PodPhase := "Succeeded".
Definition PodFailed : PodPhase := "Failed".
Definition PodUnknown : PodPhase := "Unknown".

Record ContainerStateWaiting : Type := { Reason : string }.
Record ContainerStateRunning : Type := { StartedAt : time.Time }.
Record ContainerStateTerminated : Type := { ExitCode : Z }.

(** Three pointers in Go; the API server sets at most one of them, the type
    does not enforce it. *)
Record ContainerState : Type := {
  Waiting : option ContainerStateWaiting;
  Running : option ContainerStateRunning;
  Terminated : option ContainerStateTerminated
}.

Record ContainerStatus : Type := {
  State : ContainerState;
  Ready : bool
}.

Record PodStatus : Type := {
  Phase : PodPhase;
  ContainerStatuses : list ContainerStatus
}.

Record Pod : Type := {
  Name : string;
  Namespace : string;
  CreationTimestamp : time.Time;
  Status : PodStatus
}.

End corev1.

(** ** Go's [fmt] package: the one format the watchdog stores *)

Module fmt.

(** The integer nearest to [m * 2^e], the even one when two are equally
    near. *)
Definition nearestEven (m e : Z) : Z :=
  if 0 <=? e then m * 2 ^ e
  else
    let unit := 2 ^ (- e) in
    let q := m / unit in
    let r := m mod unit in
    if 2 * r <? unit then q
    else if unit <? 2 * r then q + 1
    else if Z.even q then q else q + 1.

(** The verb [%.0f]: the exact value of the float, rounded to the nearest
    integer, half to even, and printed without a decimal point. *)
Definition verb_0f (x : PrimFloat.float) : string :=
  match FloatOps.Prim2SF x with
  | SpecFloat.S754_zero s => String.append (if s then "-" else "") "0"
  | SpecFloat.S754_finite s m e =>
      String.append (if s then "-" else "")
        (NilZero.string_of_int (Z.to_int (nearestEven (Z.pos m) e)))
  | SpecFloat.S754_infinity s => if s then "-Inf" else "+Inf"
  | SpecFloat.S754_nan => "NaN"
  end.

(** [fmt.Sprintf("%.0f seconds", x)]. *)
Definition SprintfSeconds (x : PrimFloat.float) : string :=
  String.append (verb_0f x) " seconds".

End fmt.

(** ** The watchdog's own types *)

Definition Error : Type := string.

(** [PodStatus] of the watchdog (not the orchestrator's).  [Duration] is a
    string: the elapsed time as [fmt.Sprintf] prints it, in whole seconds. *)
Record PodStatus : Type := {
  Name : string;
  Status : string;
  Namespace : string;
  Duration : string;
  Timestamp : time.Time
}.

(** One constructor per [log.Printf] of the source, with its arguments. *)
Inductive LogLine : Type :=
| InvalidPendingTimeout (str : string)
| InvalidCheckInterval (str : string)
| ListPodsError (err : Error)
| ProblemDetected (name reason : string)
| RestartingPod (name : string) (stuck : time.Duration) (reason : string)
| ProblemPodDetails (ps : PodStatus)
| RestartError (name : string) (err : Error)
| RestartOK (name : string)
| NotifyError (name : string) (err : Error)
| NotifyOK (name : string)
| MockNotify (ns podName reason : string).

(** What the process does to the outside, in program order. *)
Inductive Event : Type :=
| Log (line : LogLine)
| ApiListPods (ns : string) (opts : metav1.ListOptions)
| ApiDeletePod (ns name : string) (opts : metav1.DeleteOptions).

(** ** Configuration from the environment *)

Definition getEnv (env : os.Environ) (key def : string) : string :=
  let v := os.Getenv env key in
  if negb (String.eqb v "") then v else def.

Definition getPendingTimeout (env : os.Environ) : time.Duration * list Event :=
  let str := getEnv env "PENDING_TIMEOUT" "5" in
  let '(mins, err) := strconv.Atoi str in
  if bool_decide (err ≠ None) || (mins <=? 0)
  then (5 * time.Minute, [Log (InvalidPendingTimeout str)])
  else (time.mul mins time.Minute, []).

Definition getCheckInterval (env : os.Environ) : time.Duration * list Event :=
  let str := getEnv env "CHECK_INTERVAL" "30" in
  let '(secs, err) := strconv.Atoi str in
  if bool_decide (err ≠ None) || (secs <=? 0)
  then (30 * time.Second, [Log (InvalidCheckInterval str)])
  else (time.mul secs time.Second, []).

(** The package-level variables that are fixed when the process starts. *)
Record Config : Type := {
  namespace : string;
  labelSelector : string;
  pendingTimeout : time.Duration;
  checkInterval : time.Duration
}.

(** The initialisers of the package-level variables, in declaration order. *)
Definition loadConfig (env : os.Environ) : Config * list Event :=
  let ns := getEnv env "NAMESPACE" "default" in
  let sel := os.Getenv env "LABEL_SELECTOR" in
  let pt := getPendingTimeout env in
  let ci := getCheckInterval env in
  ({| namespace := ns; labelSelector := sel;
      pendingTimeout := pt.1; checkInterval := ci.1 |},
   pt.2 ++ ci.2).

(** ** The inspectors *)

Definition reasonsToWatch : gmap string bool :=
  list_to_map
    [ ("ContainerCreating", true);
      ("ErrImagePull", true);
      ("ImagePullBackOff", true);
      ("CrashLoopBackOff", true);
      ("CreateContainerConfigError", true) ].

(** [reasonsToWatch[r]]: a missing key reads as [false]. *)
Definition watched (r : string) : bool := default false (reasonsToWatch !! r).

(** The loop body of [shouldRestartPod] has two checks, and each reads the
    clock by itself, when it gets as far as its [time.Since].  The first, on a
    waiting container, with the [reading] its [time.Since] would get:
    [Some r] when it returns [(true, r)], [None] when control goes on to the
    second check. *)
Definition waitingCheck (reading : time.Time) (pod : corev1.Pod)
    (timeout : time.Duration) (cs : corev1.ContainerStatus) : option string :=
  match corev1.Waiting (corev1.State cs) with
  | Some w =>
      let r := corev1.Reason w in
      if watched r then
        if timeout <? time.Since reading (corev1.CreationTimestamp pod)
        then Some r else None
      else None
  | None => None
  end.

(** How many readings of the clock the first check takes: one when the
    container waits with a watched reason, none otherwise. *)
Definition waitingReads (cs : corev1.ContainerStatus) : nat :=
  match corev1.Waiting (corev1.State cs) with
  | Some w => if watched (corev1.Reason w) then 1 else 0
  | None => 0
  end.

(** The second check, on a running container that is not ready, with the
    [reading] its [time.Since] would get: [None] when control goes on to the
    next container. *)
Definition runningCheck (reading : time.Time) (timeout : time.Duration)
    (cs : corev1.ContainerStatus) : option string :=
  match corev1.Running (corev1.State cs) with
  | Some running =>
      if negb (corev1.Ready cs) then
        let startedAt := corev1.StartedAt running in
        if timeout <? time.Since reading startedAt
        then Some "RunningNotReady" else None
      else None
  | None => None
  end.

(** How many readings the second check takes, when it is reached. *)
Definition runningReads (cs : corev1.ContainerStatus) : nat :=
  match corev1.Running (corev1.State cs) with
  | Some _ => if negb (corev1.Ready cs) then 1 else 0
  | None => 0
  end.

(** The readings the loop body takes on a container when neither check
    fires. *)
Definition readsOf (cs : corev1.ContainerStatus) : nat :=
  (waitingReads cs + runningReads cs)%nat.

(** The loop body for one container status, [k] readings having been taken
    so far in this call. *)
Definition inspectContainer (clock : time.Clock) (k : nat) (pod : corev1.Pod)
    (timeout : time.Duration) (cs : corev1.ContainerStatus) : option string :=
  match waitingCheck (clock k) pod timeout cs with
  | Some r => Some r
  | None => runningCheck (clock (k + waitingReads cs)%nat) timeout cs
  end.

(** The loop of [shouldRestartPod] over the container statuses, [k] readings
    having been taken so far. *)
Fixpoint scanContainers (clock : time.Clock) (k : nat) (pod : corev1.Pod)
    (timeout : time.Duration) (css : list corev1.ContainerStatus)
    : bool * string :=
  match css with
  | [] => (false, "")
  | cs :: rest =>
      match inspectContainer clock k pod timeout cs with
      | Some r => (true, r)
      | None =>
          scanContainers clock (k + readsOf cs)%nat pod timeout rest
      end
  end.

Definition shouldRestartPod (clock : time.Clock) (pod : corev1.Pod)
    (timeout : time.Duration) : bool * string :=
  let phase := corev1.Phase (corev1.Status pod) in
  if String.eqb phase corev1.PodPending || String.eqb phase corev1.PodRunning
  then scanContainers clock 0 pod timeout
         (corev1.ContainerStatuses (corev1.Status pod))
  else (false, "").

(** The inspector of the notifying variant: no phase gate, one watched
    reason, no look at running containers; it reads the clock once for each
    container it finds waiting with that reason. *)
Fixpoint scanContainerCreating (clock : time.Clock) (k : nat)
    (pod : corev1.Pod) (timeout : time.Duration)
    (css : list corev1.ContainerStatus) : bool * string :=
  match css with
  | [] => (false, "")
  | cs :: rest =>
      match corev1.Waiting (corev1.State cs) with
      | Some w =>
          if String.eqb (corev1.Reason w) "ContainerCreating" then
            if timeout <? time.Since (clock k) (corev1.CreationTimestamp pod)
            then (true, "ContainerCreating")
            else scanContainerCreating clock (S k) pod timeout rest
          else scanContainerCreating clock k pod timeout rest
      | None => scanContainerCreating clock k pod timeout rest
      end
  end.

Definition isStuckInContainerCreating (clock : time.Clock) (pod : corev1.Pod)
    (timeout : time.Duration) : bool * string :=
  scanContainerCreating clock 0 pod timeout
    (corev1.ContainerStatuses (corev1.Status pod)).

(** ** The remediators

    [outcome] is what the call returns: [None] for a nil error. *)

Definition restartPod (outcome : option Error) (ns podName : string)
    : list Event * option Error :=
  let grace := 0 in
  let propagation := metav1.DeletePropagationForeground in
  ([ApiDeletePod ns podName
      {| metav1.GracePeriodSeconds := Some grace;
         metav1.PropagationPolicy := Some propagation |}],
   outcome).

(** The stub logs, then waits for 200ms or for the cycle's deadline,
    whichever comes first: [outcome] is [None] in the first case and the
    context's error in the second. *)
Definition notifyAPI (outcome : option Error) (ns podName reason : string)
    : list Event * option Error :=
  ([Log (MockNotify ns podName reason)], outcome).

(** ** One cycle *)

(** What distinguishes the two variants of [checkPods]. *)
Record Variant : Type := {
  inspect : time.Clock -> corev1.Pod -> time.Duration -> bool * string;
  remediate : option Error -> string -> string -> string
              -> list Event * option Error;
  logError : string -> Error -> LogLine;
  logOK : string -> LogLine
}.

Definition restartVariant : Variant :=
  {| inspect := shouldRestartPod;
     remediate := fun outcome ns podName _ => restartPod outcome ns podName;
     logError := RestartError;
     logOK := RestartOK |}.

Definition notifyVariant : Variant :=
  {| inspect := isStuckInContainerCreating;
     remediate := notifyAPI;
     logError := NotifyError;
     logOK := NotifyOK |}.

(** What the environment decides during one call of [checkPods]. *)
Record Cycle : Type := {
  (** the result of the listing call *)
  listResult : list corev1.Pod + Error;
  (** [time.Now()] read once, before the loop *)
  now : time.Time;
  (** the clock as the inspector's call on the i-th listed pod sees it *)
  clockAt : nat -> time.Clock;
  (** the outcome of a remediation call made for the i-th listed pod *)
  outcomeAt : nat -> option Error
}.

(** The tracker: [podProblemTimes], from pod name to first-seen instant. *)
Abbreviation Tracker := (gmap string time.Time).

(** The body of the loop of [checkPods] for the i-th listed pod. *)
Definition checkPod (v : Variant) (cfg : Config) (c : Cycle) (i : nat)
    (pod : corev1.Pod) (podProblemTimes : Tracker) : Tracker * list Event :=
  let '(should, reason) := inspect v (clockAt c i) pod (pendingTimeout cfg) in
  if should then
    match podProblemTimes !! corev1.Name pod with
    | None =>
        (<[corev1.Name pod := now c]> podProblemTimes,
         [Log (ProblemDetected (corev1.Name pod) reason)])
    | Some firstSeen =>
        if pendingTimeout cfg <=? time.Sub (now c) firstSeen then
          let ps := {| Name := corev1.Name pod;
                       Status := corev1.Phase (corev1.Status pod);
                       Namespace := corev1.Namespace pod;
                       Duration :=
                         fmt.SprintfSeconds
                           (time.Seconds (time.Sub (now c) firstSeen));
                       Timestamp := now c |} in
          let call := remediate v (outcomeAt c i) (corev1.Namespace pod)
                        (corev1.Name pod) reason in
          (delete (corev1.Name pod) podProblemTimes,
           [Log (RestartingPod (corev1.Name pod)
                   (time.Sub (now c) firstSeen) reason);
            Log (ProblemPodDetails ps)]
           ++ call.1
           ++ [Log (match call.2 with
                    | Some err => logError v (corev1.Name pod) err
                    | None => logOK v (corev1.Name pod)
                    end)])
        else (podProblemTimes, [])
    end
  else (delete (corev1.Name pod) podProblemTimes, []).

(** [for _, pod := range pods.Items], from index [i] on. *)
Fixpoint rangeItems (v : Variant) (cfg : Config) (c : Cycle) (i : nat)
    (items : list corev1.Pod) (podProblemTimes : Tracker)
    : Tracker * list Event :=
  match items with
  | [] => (podProblemTimes, [])
  | pod :: rest =>
      let r1 := checkPod v cfg c i pod podProblemTimes in
      let r2 := rangeItems v cfg c (S i) rest r1.1 in
      (r2.1, r1.2 ++ r2.2)
  end.

Definition checkPods (v : Variant) (cfg : Config) (c : Cycle)
    (podProblemTimes : Tracker) : Tracker * list Event :=
  let listOpts :=
    {| metav1.LabelSelector :=
         if negb (String.eqb (labelSelector cfg) "")
         then labelSelector cfg else "" |} in
  let call := ApiListPods (namespace cfg) listOpts in
  match listResult c with
  | inr err => (podProblemTimes, [call; Log (ListPodsError err)])
  | inl items =>
      let r := rangeItems v cfg c 0 items podProblemTimes in
      (r.1, call :: r.2)
  end.

(** The loop of [main] over the cycles of a finite prefix of the run: the
    tracker at the end and the events of each cycle. *)
Fixpoint run (v : Variant) (cfg : Config) (cycles : list Cycle)
    (podProblemTimes : Tracker) : Tracker * list (list Event) :=
  match cycles with
  | [] => (podProblemTimes, [])
  | c :: rest =>
      let r1 := checkPods v cfg c podProblemTimes in
      let r2 := run v cfg rest r1.1 in
      (r2.1, r1.2 :: r2.2)
  end.

(** ** Vocabulary of the properties *)

(** The pods of a cycle's listing; none when the listing call failed. *)
Definition listing (c : Cycle) : list corev1.Pod :=
  match listResult c with
  | inl items => items
  | inr _ => []
  end.

Definition podNames (items : list corev1.Pod) : list string :=
  map corev1.Name items.

(** The tracker's contract on the record of one identity: the record it
    leaves and what it asks of the loop. *)
Inductive Action : Type :=
| NoAction
| StartedTracking
| ReadyToRemediate (elapsed : time.Duration) (reason : string).

Definition update (record : option time.Time) (stuck : bool) (reason : string)
    (now : time.Time) (timeout : time.Duration) : option time.Time * Action :=
  if stuck then
    match record with
    | None => (Some now, StartedTracking)
    | Some T0 =>
        if timeout <=? time.Sub now T0
        then (None, ReadyToRemediate (time.Sub now T0) reason)
        else (Some T0, NoAction)
    end
  else (None, NoAction).

Definition setRecord (name : string) (record : option time.Time)
    (m : Tracker) : Tracker :=
  match record with
  | Some t => <[name := t]> m
  | None => delete name m
  end.

(** The events by which the loop body carries out an action for the i-th
    listed pod. *)
Definition perform (v : Variant) (c : Cycle) (i : nat) (pod : corev1.Pod)
    (reason : string) (a : Action) : list Event :=
  match a with
  | NoAction => []
  | StartedTracking => [Log (ProblemDetected (corev1.Name pod) reason)]
  | ReadyToRemediate elapsed r =>
      let call := remediate v (outcomeAt c i) (corev1.Namespace pod)
                    (corev1.Name pod) r in
      [Log (RestartingPod (corev1.Name pod) elapsed r);
       Log (ProblemPodDetails
              {| Name := corev1.Name pod;
                 Status := corev1.Phase (corev1.Status pod);
                 Namespace := corev1.Namespace pod;
                 Duration := fmt.SprintfSeconds (time.Seconds elapsed);
                 Timestamp := now c |})]
      ++ call.1
      ++ [Log (match call.2 with
               | Some err => logError v (corev1.Name pod) err
               | None => logOK v (corev1.Name pod)
               end)]
  end.

(** A remediation call for the pod named [E]: the delete of one variant, the
    notification of the other. *)
Definition isRemediationOf (E : string) (e : Event) : bool :=
  match e with
  | ApiDeletePod _ name _ => String.eqb name E
  | Log (MockNotify _ name _) => String.eqb name E
  | _ => false
  end.

Fixpoint remediations (E : string) (trace : list Event) : nat :=
  match trace with
  | [] => 0%nat
  | e :: rest =>
      ((if isRemediationOf E e then 1 else 0) + remediations E rest)%nat
  end.

(** A variant whose remediation makes one remediation call, for the pod it is
    given, and whose outcome lines are not such calls. *)
Definition callsOnce (v : Variant) : Prop :=
  forall (E : string),
    (forall outcome ns name reason,
       remediations E (remediate v outcome ns name reason).1
       = if decide (name = E) then 1%nat else 0%nat) /\
    (forall name err, isRemediationOf E (Log (logError v name err)) = false) /\
    (forall name, isRemediationOf E (Log (logOK v name)) = false).

(** The inspector saw a pod named [E] in the cycle's listing and called it
    stuck. *)
Definition classifiedStuck (v : Variant) (cfg : Config) (c : Cycle)
    (E : string) : Prop :=
  exists (i : nat) (pod : corev1.Pod),
    listing c !! i = Some pod /\ corev1.Name pod = E /\
    (inspect v (clockAt c i) pod (pendingTimeout cfg)).1 = true.

(** The listing succeeded, holds exactly one pod named [E], and the inspector
    called that pod stuck. *)
Definition observedStuck (v : Variant) (cfg : Config) (E : string)
    (c : Cycle) : Prop :=
  exists (pre : list corev1.Pod) (pod : corev1.Pod) (post : list corev1.Pod),
    listResult c = inl (pre ++ pod :: post) /\
    corev1.Name pod = E /\
    (E ∉ podNames pre) /\ (E ∉ podNames post) /\
    (inspect v (clockAt c (length pre)) pod (pendingTimeout cfg)).1 = true.

(** *** The inspector's rules, as the specification words them *)

Definition watchedSet : list string :=
  [ "ContainerCreating"; "ErrImagePull"; "ImagePullBackOff";
    "CrashLoopBackOff"; "CreateContainerConfigError" ].

(** Rule (a), at the instant [reading] of its check: waiting with a watched
    reason [r], the pod older than the timeout. *)
Definition ruleWaiting (reading : time.Time) (pod : corev1.Pod)
    (timeout : time.Duration) (cs : corev1.ContainerStatus) (r : string)
    : Prop :=
  exists w, corev1.Waiting (corev1.State cs) = Some w /\
            corev1.Reason w = r /\ r ∈ watchedSet /\
            timeout < time.Sub reading (corev1.CreationTimestamp pod).

(** Rule (b), at the instant [reading] of its check: running, not ready,
    started longer ago than the timeout. *)
Definition ruleRunning (reading : time.Time) (timeout : time.Duration)
    (cs : corev1.ContainerStatus) : Prop :=
  exists running, corev1.Running (corev1.State cs) = Some running /\
                  corev1.Ready cs = false /\
                  timeout < time.Sub reading (corev1.StartedAt running).

(** The readings a list of containers takes when no check fires. *)
Fixpoint readsBefore (css : list corev1.ContainerStatus) : nat :=
  match css with
  | [] => 0%nat
  | cs :: rest => (readsOf cs + readsBefore rest)%nat
  end.

(** A container reached after [k] readings matches with reason [r]: by rule
    (a) at the reading of the first check, or else by rule (b) at the reading
    of the second. *)
Definition matchesWith (clock : time.Clock) (k : nat) (pod : corev1.Pod)
    (timeout : time.Duration) (cs : corev1.ContainerStatus) (r : string)
    : Prop :=
  ruleWaiting (clock k) pod timeout cs r \/
  ((forall r', ~ ruleWaiting (clock k) pod timeout cs r') /\
   ruleRunning (clock (k + waitingReads cs)%nat) timeout cs /\
   r = "RunningNotReady").

Definition noMatch (clock : time.Clock) (k : nat) (pod : corev1.Pod)
    (timeout : time.Duration) (cs : corev1.ContainerStatus) : Prop :=
  (forall r, ~ ruleWaiting (clock k) pod timeout cs r) /\
  ~ ruleRunning (clock (k + waitingReads cs)%nat) timeout cs.

(** No container of the list matches, the first being reached after [k]
    readings and each next one after the readings of those before it. *)
Fixpoint noMatchFrom (clock : time.Clock) (k : nat) (pod : corev1.Pod)
    (timeout : time.Duration) (css : list corev1.ContainerStatus) : Prop :=
  match css with
  | [] => True
  | cs :: rest =>
      noMatch clock k pod timeout cs /\
      noMatchFrom clock (k + readsOf cs)%nat pod timeout rest
  end.

(** The containers the older inspector looks at. *)
Definition isCreating (cs : corev1.ContainerStatus) : bool :=
  match corev1.Waiting (corev1.State cs) with
  | Some w => String.eqb (corev1.Reason w) "ContainerCreating"
  | None => false
  end.

(** The readings the older inspector takes when none of its checks fires:
    one for each container waiting with ContainerCreating. *)
Fixpoint creatingReads (css : list corev1.ContainerStatus) : nat :=
  match css with
  | [] => 0%nat
  | cs :: rest => ((if isCreating cs then 1 else 0) + creatingReads rest)%nat
  end.

(** *** Values of the environment *)

(** The decimal numeral of an integer: digits, no leading zero, a minus sign
    when negative. *)
Definition decimal (n : Z) : string := NilZero.string_of_int (Z.to_int n).

(** A string without its leading sign, if it has one. *)
Definition stripSign (s : string) : string :=
  match s with
  | EmptyString => EmptyString
  | String c rest => if strconv.isSign c then rest else s
  end.

(** Some character of the string is not a decimal digit. *)
Definition hasNonDigit (s : string) : Prop :=
  exists pre c post,
    s = String.append pre (String c post) /\ strconv.digit c = None.

(** The two settings that are durations, with the environment variable,
    the unit, the default and the warning of each. *)
Inductive Setting : Type :=
| PendingTimeoutSetting
| CheckIntervalSetting.

Definition settingVariable (s : Setting) : string :=
  match s with
  | PendingTimeoutSetting => "PENDING_TIMEOUT"
  | CheckIntervalSetting => "CHECK_INTERVAL"
  end.

Definition settingUnit (s : Setting) : time.Duration :=
  match s with
  | PendingTimeoutSetting => time.Minute
  | CheckIntervalSetting => time.Second
  end.

Definition settingDefault (s : Setting) : time.Duration :=
  match s with
  | PendingTimeoutSetting => 5 * time.Minute
  | CheckIntervalSetting => 30 * time.Second
  end.

Definition settingWarning (s : Setting) (str : string) : Event :=
  match s with
  | PendingTimeoutSetting => Log (InvalidPendingTimeout str)
  | CheckIntervalSetting => Log (InvalidCheckInterval str)
  end.

Definition readSetting (s : Setting) (env : os.Environ)
    : time.Duration * list Event :=
  match s with
  | PendingTimeoutSetting => getPendingTimeout env
  | CheckIntervalSetting => getCheckInterval env
  end.

(** ** Scenario A: one pod that cannot pull its image

    Default configuration (timeout 5m, interval 30s); cycle [k] takes its
    [now] at instant [k * 30s].  What the inspector's clock readings show
    later in the cycle is left to the environment. *)

Module ScenarioA.

Definition waitingContainer (reason : string) : corev1.ContainerStatus :=
  {| corev1.State :=
       {| corev1.Waiting := Some {| corev1.Reason := reason |};
          corev1.Running := None;
          corev1.Terminated := None |};
     corev1.Ready := false |}.

Definition p1 : corev1.Pod :=
  {| corev1.Name := "p1";
     corev1.Namespace := "default";
     corev1.CreationTimestamp := 0;
     corev1.Status :=
       {| corev1.Phase := corev1.PodPending;
          corev1.ContainerStatuses := [waitingContainer "ImagePullBackOff"] |}
  |}.

Definition cfg : Config := (loadConfig ∅).1.

(** [reading k i j] is what reading [j] of the inspector's call on pod [i]
    of cycle [k] shows. *)
Definition Readings : Type := nat -> nat -> time.Clock.

Definition cycleAt (reading : Readings) (listed : list corev1.Pod)
    (outcome : option Error) (k : nat) : Cycle :=
  {| listResult := inl listed;
     now := Z.of_nat k * checkInterval cfg;
     clockAt := reading k;
     outcomeAt := fun _ => outcome |}.

(** The one reading that a cycle listing [p1] alone takes, on its only
    container, falls between the cycle's [now] and the [now] of the next
    cycle. *)
Definition admissible (reading : Readings) : Prop :=
  forall k, Z.of_nat k * checkInterval cfg <= reading k 0%nat 0%nat
            <= Z.of_nat (S k) * checkInterval cfg.

(** The first [n] cycles, [p1] listed in each. *)
Definition cyclesAt (reading : Readings) (outcome : option Error) (n : nat)
    : list Cycle :=
  map (cycleAt reading [p1] outcome) (seq 0 n).

(** The tracker after the first [n] cycles of a fresh process. *)
Definition trackerAt (reading : Readings) (outcome : option Error) (n : nat)
    : Tracker :=
  (run restartVariant cfg (cyclesAt reading outcome n) ∅).1.

(** The events of cycle [k]. *)
Definition eventsIn (reading : Readings) (outcome : option Error) (k : nat)
    : list Event :=
  (checkPods restartVariant cfg (cycleAt reading [p1] outcome k)
     (trackerAt reading outcome k)).2.

(** The cycle that first finds [p1] stuck: the one at 5m00s when its reading
    is past 5m00s, the one at 5m30s otherwise. *)
Definition firstStuck (reading : Readings) : nat :=
  if 5 * time.Minute <? reading 10%nat 0%nat 0%nat then 10%nat else 11%nat.

(** One environment to run the scenario in: the inspector's call on pod [i]
    begins [i + 1] microseconds after the cycle's [now], and its readings
    are a nanosecond apart. *)
Definition tick : Readings :=
  fun k i j => Z.of_nat k * checkInterval cfg
               + 1000 * Z.of_nat (S i) + Z.of_nat j.

Definition cycle (listed : list corev1.Pod) (outcome : option Error)
    (k : nat) : Cycle :=
  cycleAt tick listed outcome k.

Definition cycles (outcome : option Error) (n : nat) : list Cycle :=
  cyclesAt tick outcome n.

Definition trackerAfter (outcome : option Error) (n : nat) : Tracker :=
  trackerAt tick outcome n.

Definition eventsAt (outcome : option Error) (k : nat) : list Event :=
  eventsIn tick outcome k.

End ScenarioA.

(** * Properties *)

(** ** Durations and instants *)

Lemma saturate_range (z : Z) :
  time.minDuration <= time.saturate z <= time.maxDuration.
Proof.
  unfold time.saturate, time.minDuration, time.maxDuration.
  repeat case_match; lia.
Qed.

Lemma saturate_exact (z : Z) :
  time.minDuration <= z <= time.maxDuration -> time.saturate z = z.
Proof.
  unfold time.saturate. intros [Hlo Hhi].
  destruct (Z.ltb_spec z time.minDuration); [lia |].
  destruct (Z.ltb_spec time.maxDuration z); [lia | reflexivity].
Qed.

Lemma saturate_mono (a b : Z) : a <= b -> time.saturate a <= time.saturate b.
Proof.
  unfold time.saturate, time.minDuration, time.maxDuration. intros Hab.
  repeat case_match; lia.
Qed.

Lemma Sub_exact (t u : time.Time) :
  time.minDuration <= t - u <= time.maxDuration -> time.Sub t u = t - u.
Proof. apply saturate_exact. Qed.

Lemma Sub_self (t : time.Time) : time.Sub t t = 0.
Proof. unfold time.Sub. rewrite Z.sub_diag. reflexivity. Qed.

Lemma Sub_mono (t t' u : time.Time) :
  t <= t' -> time.Sub t u <= time.Sub t' u.
Proof. intros H. apply saturate_mono. lia. Qed.

Lemma wrap64_exact (z : Z) :
  time.minDuration <= z <= time.maxDuration -> time.wrap64 z = z.
Proof.
  unfold time.wrap64, time.minDuration, time.maxDuration. intros H.
  rewrite Z.mod_small; lia.
Qed.

(** ** The inspector *)

Lemma watched_spec (r : string) : watched r = true <-> r ∈ watchedSet.
Proof.
  unfold watched, watchedSet. split.
  - destruct (reasonsToWatch !! r) as [b |] eqn:Hr; [| discriminate].
    intros _. apply elem_of_list_to_map_2 in Hr.
    repeat (apply elem_of_cons in Hr as [Hr | Hr];
            [injection Hr as -> _; set_solver |]).
    by apply elem_of_nil in Hr.
  - intros Hin.
    repeat (apply elem_of_cons in Hin as [-> | Hin]; [reflexivity |]).
    by apply elem_of_nil in Hin.
Qed.

Lemma watched_false (r : string) : watched r = false <-> r ∉ watchedSet.
Proof.
  rewrite <- watched_spec. destruct (watched r); split; congruence.
Qed.

Lemma waitingCheck_Some reading pod timeout cs r :
  waitingCheck reading pod timeout cs = Some r <->
  ruleWaiting reading pod timeout cs r.
Proof.
  unfold waitingCheck, ruleWaiting, time.Since.
  destruct (corev1.Waiting (corev1.State cs)) as [w |].
  - destruct (watched (corev1.Reason w)) eqn:Hwatched.
    + apply watched_spec in Hwatched.
      destruct (Z.ltb_spec timeout
                  (time.Sub reading (corev1.CreationTimestamp pod))).
      * split; [intros [= <-]; eauto | by intros (? & [= <-] & <- & _)].
      * split; [discriminate | intros (? & _ & _ & _ & ?); lia].
    + apply watched_false in Hwatched.
      split; [discriminate | by intros (? & [= <-] & <- & ? & _)].
  - split; [discriminate | by intros (? & ? & _)].
Qed.

Lemma waitingCheck_None reading pod timeout cs :
  waitingCheck reading pod timeout cs = None <->
  forall r, ~ ruleWaiting reading pod timeout cs r.
Proof.
  split.
  - intros Hnone r Hr. apply waitingCheck_Some in Hr. congruence.
  - intros Hno.
    destruct (waitingCheck reading pod timeout cs) as [r |] eqn:Hr;
      [| reflexivity].
    apply waitingCheck_Some in Hr. by apply Hno in Hr.
Qed.

Lemma runningCheck_Some reading timeout cs r :
  runningCheck reading timeout cs = Some r <->
  ruleRunning reading timeout cs /\ r = "RunningNotReady".
Proof.
  unfold runningCheck, ruleRunning, time.Since.
  destruct (corev1.Running (corev1.State cs)) as [running |].
  - destruct (corev1.Ready cs); simpl.
    + split; [discriminate | by intros [(? & _ & ? & _) _]].
    + destruct (Z.ltb_spec timeout
                  (time.Sub reading (corev1.StartedAt running))).
      * split; [intros [= <-]; eauto | by intros [_ ->]].
      * split; [discriminate | intros [(? & [= <-] & _ & ?) _]; lia].
  - split; [discriminate | by intros [(? & ? & _) _]].
Qed.

(** A check that takes no reading does not fire, whatever the clock. *)
Lemma waitingCheck_unread reading pod timeout cs :
  waitingReads cs = 0%nat -> waitingCheck reading pod timeout cs = None.
Proof.
  unfold waitingReads, waitingCheck.
  destruct (corev1.Waiting (corev1.State cs)) as [w |]; [| reflexivity].
  destruct (watched (corev1.Reason w)); [discriminate | reflexivity].
Qed.

Lemma runningCheck_unread reading timeout cs :
  runningReads cs = 0%nat -> runningCheck reading timeout cs = None.
Proof.
  unfold runningReads, runningCheck.
  destruct (corev1.Running (corev1.State cs)) as [running |]; [| reflexivity].
  destruct (negb (corev1.Ready cs)); [discriminate | reflexivity].
Qed.

Lemma waitingReads_le cs : (waitingReads cs <= 1)%nat.
Proof. unfold waitingReads. repeat case_match; lia. Qed.

Lemma runningReads_le cs : (runningReads cs <= 1)%nat.
Proof. unfold runningReads. repeat case_match; lia. Qed.

(** The loop body returns [(true, r)] exactly when the container matches
    with [r], and falls through exactly when it matches nothing. *)
Lemma inspectContainer_Some clock k pod timeout cs r :
  inspectContainer clock k pod timeout cs = Some r <->
  matchesWith clock k pod timeout cs r.
Proof.
  unfold inspectContainer, matchesWith.
  rewrite <- waitingCheck_None, <- runningCheck_Some, <- waitingCheck_Some.
  destruct (waitingCheck (clock k) pod timeout cs) as [r' |].
  - split; [intros [= <-]; by left | intros [? | [? _]]; congruence].
  - split; [intros ?; by right | intros [? | [_ ?]]; congruence].
Qed.

Lemma inspectContainer_None clock k pod timeout cs :
  inspectContainer clock k pod timeout cs = None <->
  noMatch clock k pod timeout cs.
Proof.
  unfold inspectContainer, noMatch.
  rewrite <- waitingCheck_None.
  destruct (waitingCheck (clock k) pod timeout cs) as [r' |].
  - split; [discriminate | by intros [? _]].
  - split.
    + intros Hrun. split; [reflexivity |].
      intros Hr.
      assert (runningCheck (clock (k + waitingReads cs)%nat) timeout cs
              = Some "RunningNotReady")
        by (by apply runningCheck_Some). congruence.
    + intros [_ Hno].
      destruct (runningCheck (clock (k + waitingReads cs)%nat) timeout cs)
        as [r |] eqn:Hr; [| reflexivity].
      apply runningCheck_Some in Hr as [Hr _]. contradiction.
Qed.

Lemma scanContainers_first clock k pod timeout pre cs post r :
  noMatchFrom clock k pod timeout pre ->
  matchesWith clock (k + readsBefore pre)%nat pod timeout cs r ->
  scanContainers clock k pod timeout (pre ++ cs :: post) = (true, r).
Proof.
  revert k. induction pre as [| c pre IH]; intros k Hpre Hcs; simpl in *.
  - rewrite Nat.add_0_r in Hcs.
    apply inspectContainer_Some in Hcs. by rewrite Hcs.
  - destruct Hpre as [Hc Hpre]. apply inspectContainer_None in Hc.
    rewrite Hc. apply IH; [exact Hpre |].
    by rewrite <- Nat.add_assoc.
Qed.

Lemma scanContainers_none clock k pod timeout css :
  noMatchFrom clock k pod timeout css ->
  scanContainers clock k pod timeout css = (false, "").
Proof.
  revert k. induction css as [| c css IH]; intros k; simpl; [reflexivity |].
  intros [Hc Hrest]. apply inspectContainer_None in Hc. rewrite Hc.
  by apply IH.
Qed.

(** The scan depends on the pod through its creation timestamp alone. *)
Lemma scanContainers_ext clock k pod pod' timeout css :
  corev1.CreationTimestamp pod = corev1.CreationTimestamp pod' ->
  scanContainers clock k pod timeout css
  = scanContainers clock k pod' timeout css.
Proof.
  intros Hc. revert k.
  induction css as [| cs css IH]; intros k; simpl; [reflexivity |].
  unfold inspectContainer, waitingCheck. rewrite Hc, IH. reflexivity.
Qed.

(** The scan depends on the clock through the readings it takes alone. *)
Lemma inspectContainer_agree clock clock' k pod timeout cs :
  (forall j, (k <= j < k + readsOf cs)%nat -> clock j = clock' j) ->
  inspectContainer clock k pod timeout cs
  = inspectContainer clock' k pod timeout cs.
Proof.
  intros Hsame. unfold inspectContainer, readsOf in *.
  assert (Hw : waitingCheck (clock k) pod timeout cs
               = waitingCheck (clock' k) pod timeout cs).
  { destruct (waitingReads cs) eqn:Hreads.
    - by rewrite !waitingCheck_unread.
    - rewrite Hsame by lia. reflexivity. }
  rewrite Hw. destruct (waitingCheck (clock' k) pod timeout cs);
    [reflexivity |].
  destruct (runningReads cs) eqn:Hreads.
  - by rewrite !runningCheck_unread.
  - rewrite Hsame by lia. reflexivity.
Qed.

Lemma scanContainers_agree clock clock' k pod timeout css :
  (forall j, (k <= j < k + readsBefore css)%nat -> clock j = clock' j) ->
  scanContainers clock k pod timeout css
  = scanContainers clock' k pod timeout css.
Proof.
  revert k. induction css as [| cs css IH]; intros k Hsame; simpl in *;
    [reflexivity |].
  rewrite (inspectContainer_agree clock clock') by (intros j Hj; apply Hsame; lia).
  destruct (inspectContainer clock' k pod timeout cs); [reflexivity |].
  apply IH. intros j Hj. apply Hsame. unfold readsOf in *. lia.
Qed.

Lemma shouldRestartPod_other_phase clock pod timeout :
  corev1.Phase (corev1.Status pod) <> corev1.PodPending ->
  corev1.Phase (corev1.Status pod) <> corev1.PodRunning ->
  shouldRestartPod clock pod timeout = (false, "").
Proof.
  intros Hp Hr. unfold shouldRestartPod.
  apply String.eqb_neq in Hp, Hr. rewrite Hp, Hr. reflexivity.
Qed.

Lemma shouldRestartPod_scans clock pod timeout :
  corev1.Phase (corev1.Status pod) ∈ [corev1.PodPending; corev1.PodRunning] ->
  shouldRestartPod clock pod timeout =
  scanContainers clock 0 pod timeout
    (corev1.ContainerStatuses (corev1.Status pod)).
Proof.
  intros Hin. unfold shouldRestartPod.
  apply elem_of_cons in Hin as [-> | Hin]; [reflexivity |].
  apply list_elem_of_singleton in Hin as ->. reflexivity.
Qed.

Lemma readsBefore_le css : (readsBefore css <= 2 * length css)%nat.
Proof.
  induction css as [| cs css IH]; simpl; [lia |].
  pose proof (waitingReads_le cs). pose proof (runningReads_le cs).
  unfold readsOf. lia.
Qed.

Lemma noMatchFrom_all clock k pod timeout css :
  (forall j cs, cs ∈ css -> noMatch clock j pod timeout cs) ->
  noMatchFrom clock k pod timeout css.
Proof.
  revert k. induction css as [| cs css IH]; intros k Hall; simpl; [done |].
  split; [apply Hall; by left |].
  apply IH. intros j c Hin. apply Hall. by right.
Qed.

(** A container waiting for a reason that is not watched, and not running,
    matches nothing. *)
Lemma unwatched_noMatch clock k pod timeout cs w :
  corev1.Waiting (corev1.State cs) = Some w ->
  corev1.Reason w ∉ watchedSet ->
  corev1.Running (corev1.State cs) = None ->
  noMatch clock k pod timeout cs.
Proof.
  intros Hw Hout Hrun. split.
  - intros r (w' & Hw' & <- & Hin & _). congruence.
  - intros (running & Hr & _). congruence.
Qed.

(** *** The older inspector *)

Lemma scanContainerCreating_cases clock k pod timeout css :
  scanContainerCreating clock k pod timeout css = (true, "ContainerCreating") \/
  scanContainerCreating clock k pod timeout css = (false, "").
Proof.
  revert k. induction css as [| cs css IH]; intros k; simpl; [by right |].
  destruct (corev1.Waiting (corev1.State cs)) as [w |]; [| apply IH].
  destruct (String.eqb _ _); [| apply IH].
  destruct (_ <? _); [by left | apply IH].
Qed.

(** It calls the pod stuck exactly when one of its readings, one for each
    container waiting with ContainerCreating, shows the pod older than the
    timeout. *)
Lemma scanContainerCreating_true clock k pod timeout css :
  scanContainerCreating clock k pod timeout css = (true, "ContainerCreating") <->
  exists j, (j < creatingReads css)%nat /\
            timeout < time.Sub (clock (k + j)%nat) (corev1.CreationTimestamp pod).
Proof.
  revert k. induction css as [| cs css IH]; intros k; simpl.
  - split; [discriminate | intros (j & Hj & _); lia].
  - unfold isCreating, time.Since.
    destruct (corev1.Waiting (corev1.State cs)) as [w |].
    + destruct (String.eqb (corev1.Reason w) "ContainerCreating").
      * destruct (Z.ltb_spec timeout
                    (time.Sub (clock k) (corev1.CreationTimestamp pod)))
          as [Hlt | Hge].
        -- split; [intros _ | done]. exists 0%nat.
           rewrite Nat.add_0_r. split; [lia | exact Hlt].
        -- rewrite IH. split.
           ++ intros (j & Hj & Hold). exists (S j).
              rewrite <- Nat.add_succ_comm. split; [lia | exact Hold].
           ++ intros ([| j] & Hj & Hold).
              ** rewrite Nat.add_0_r in Hold. lia.
              ** exists j. rewrite Nat.add_succ_comm. split; [lia | exact Hold].
      * rewrite IH. reflexivity.
    + rewrite IH. reflexivity.
Qed.

Lemma creatingReads_pos css :
  (0 < creatingReads css)%nat <->
  exists cs w, cs ∈ css /\ corev1.Waiting (corev1.State cs) = Some w /\
               corev1.Reason w = "ContainerCreating".
Proof.
  induction css as [| cs css IH]; simpl.
  - split; [lia | intros (cs & w & Hin & _); by apply elem_of_nil in Hin].
  - unfold isCreating at 1.
    destruct (corev1.Waiting (corev1.State cs)) as [w |] eqn:Hw.
    + destruct (String.eqb_spec (corev1.Reason w) "ContainerCreating")
        as [Hr | Hr].
      * split; [intros _ | lia]. exists cs, w. split; [by left | done].
      * simpl. rewrite IH. split.
        -- intros (c & w' & Hin & H). exists c, w'. split; [by right | done].
        -- intros (c & w' & Hin & Hw' & Hr').
           apply elem_of_cons in Hin as [-> | Hin]; [congruence | eauto].
    + simpl. rewrite IH. split.
      * intros (c & w' & Hin & H). exists c, w'. split; [by right | done].
      * intros (c & w' & Hin & Hw' & Hr').
        apply elem_of_cons in Hin as [-> | Hin]; [congruence | eauto].
Qed.

(** A container waiting with ContainerCreating takes one reading in the newer
    inspector too. *)
Lemma creatingReads_le css : (creatingReads css <= readsBefore css)%nat.
Proof.
  induction css as [| cs css IH]; simpl; [lia |].
  unfold readsOf, isCreating, waitingReads.
  destruct (corev1.Waiting (corev1.State cs)) as [w |]; [| lia].
  destruct (String.eqb_spec (corev1.Reason w) "ContainerCreating") as [-> | _];
    [| lia].
  change (watched "ContainerCreating") with true. cbv iota. lia.
Qed.

Lemma scanContainerCreating_agree clock clock' k pod timeout css :
  (forall j, (k <= j < k + creatingReads css)%nat -> clock j = clock' j) ->
  scanContainerCreating clock k pod timeout css
  = scanContainerCreating clock' k pod timeout css.
Proof.
  revert k. induction css as [| cs css IH]; intros k Hsame; simpl in *;
    [reflexivity |].
  unfold isCreating in Hsame.
  destruct (corev1.Waiting (corev1.State cs)) as [w |].
  - destruct (String.eqb (corev1.Reason w) "ContainerCreating").
    + rewrite (Hsame k) by lia. destruct (_ <? _); [reflexivity |].
      apply IH. intros j Hj. apply Hsame. lia.
    + apply IH. intros j Hj. apply Hsame. lia.
  - apply IH. intros j Hj. apply Hsame. lia.
Qed.

Lemma scanContainerCreating_ext clock k pod pod' timeout css :
  corev1.CreationTimestamp pod = corev1.CreationTimestamp pod' ->
  scanContainerCreating clock k pod timeout css
  = scanContainerCreating clock k pod' timeout css.
Proof.
  intros Hc. revert k.
  induction css as [| cs css IH]; intros k; simpl; [reflexivity |].
  rewrite Hc, !IH. reflexivity.
Qed.

(** C2, as amended.  [shouldRestartPod] never calls a pod stuck whose phase is
    Succeeded, Failed or Unknown, whatever its containers; for a Pending or
    Running pod it answers with the first container, in the given order, that
    matches rule (a) (waiting, watched reason, pod older than the timeout:
    stuck with that reason) or rule (b) (running, not ready, started longer
    ago than the timeout: stuck with RunningNotReady), whatever the containers
    after it, each rule being judged at the clock reading its own check
    takes; with no matching container the pod is not stuck, and a container
    waiting for a reason outside the watched set (PodInitializing, say)
    matches nothing.  [isStuckInContainerCreating] follows other rules: no
    look at the phase, and stuck, with reason ContainerCreating, exactly when
    one of its readings, one for each container waiting with that reason,
    shows the pod older than the timeout. *)
Theorem shouldRestartPod_rules (clock : time.Clock) (pod : corev1.Pod)
    (timeout : time.Duration) :
  let phase := corev1.Phase (corev1.Status pod) in
  let css := corev1.ContainerStatuses (corev1.Status pod) in
  (phase ∈ [corev1.PodSucceeded; corev1.PodFailed; corev1.PodUnknown] ->
   shouldRestartPod clock pod timeout = (false, "")) /\
  (phase ∈ [corev1.PodPending; corev1.PodRunning] ->
   (forall pre cs post r,
      css = pre ++ cs :: post ->
      noMatchFrom clock 0 pod timeout pre ->
      matchesWith clock (readsBefore pre) pod timeout cs r ->
      shouldRestartPod clock pod timeout = (true, r)) /\
   (noMatchFrom clock 0 pod timeout css ->
    shouldRestartPod clock pod timeout = (false, ""))) /\
  (forall k cs w,
     corev1.Waiting (corev1.State cs) = Some w ->
     corev1.Reason w ∉ watchedSet ->
     corev1.Running (corev1.State cs) = None ->
     noMatch clock k pod timeout cs) /\
  ((isStuckInContainerCreating clock pod timeout = (true, "ContainerCreating")
    <-> exists j, (j < creatingReads css)%nat /\
                  timeout < time.Sub (clock j) (corev1.CreationTimestamp pod)) /\
   (isStuckInContainerCreating clock pod timeout <> (true, "ContainerCreating")
    -> isStuckInContainerCreating clock pod timeout = (false, ""))).
Proof.
  intros phase css. split; [| split; [| split]].
  - intros Hin. apply shouldRestartPod_other_phase; fold phase;
      intros Heq; rewrite Heq in Hin;
      repeat (apply elem_of_cons in Hin as [Hin | Hin]; [discriminate |]);
      by apply elem_of_nil in Hin.
  - intros Hin. rewrite (shouldRestartPod_scans _ _ _ Hin). fold css. split.
    + intros pre cs post r -> Hpre Hcs. by apply scanContainers_first.
    + apply scanContainers_none.
  - intros k cs w. apply unwatched_noMatch.
  - unfold isStuckInContainerCreating. fold css. split.
    + apply (scanContainerCreating_true clock 0).
    + destruct (scanContainerCreating_cases clock 0 pod timeout css)
        as [-> | ->]; done.
Qed.

Lemma shouldRestartPod_rules_witness :
  let clock : time.Clock := fun j => 6 * time.Minute + Z.of_nat j in
  shouldRestartPod clock ScenarioA.p1 (5 * time.Minute)
  = (true, "ImagePullBackOff")
  /\ noMatch clock 0 ScenarioA.p1 (5 * time.Minute)
       (ScenarioA.waitingContainer "PodInitializing").
Proof.
  intros clock.
  destruct (shouldRestartPod_rules clock ScenarioA.p1 (5 * time.Minute))
    as (_ & Hscan & Hout & _).
  split.
  - destruct Hscan as [Hfirst _].
    + simpl. apply elem_of_cons. left. reflexivity.
    + apply (Hfirst [] (ScenarioA.waitingContainer "ImagePullBackOff") []).
      * reflexivity.
      * exact I.
      * left. exists {| corev1.Reason := "ImagePullBackOff" |}.
        split; [reflexivity |]. split; [reflexivity |].
        split; [| vm_compute; reflexivity].
        apply watched_spec. reflexivity.
  - apply (Hout _ _ {| corev1.Reason := "PodInitializing" |}).
    + reflexivity.
    + apply watched_false. reflexivity.
    + reflexivity.
Defined.

(** C2, as stated, fails for [isStuckInContainerCreating], the inspector of
    main.go.  It calls a Succeeded pod stuck; and on a Pending pod whose one
    container matches rule (a) with ImagePullBackOff it does not answer stuck
    with that reason. *)
Lemma older_inspector_breaks_rules :
  ~ (forall (clock : time.Clock) pod timeout,
       corev1.Phase (corev1.Status pod)
       ∈ [corev1.PodSucceeded; corev1.PodFailed; corev1.PodUnknown] ->
       isStuckInContainerCreating clock pod timeout = (false, "")) /\
  ~ (forall (clock : time.Clock) pod timeout cs r,
       corev1.Phase (corev1.Status pod)
       ∈ [corev1.PodPending; corev1.PodRunning] ->
       corev1.ContainerStatuses (corev1.Status pod) = [cs] ->
       matchesWith clock 0 pod timeout cs r ->
       isStuckInContainerCreating clock pod timeout = (true, r)).
Proof.
  split.
  - intros H.
    specialize (H (fun j => 6 * time.Minute + Z.of_nat j)
      {| corev1.Name := "job"; corev1.Namespace := "default";
         corev1.CreationTimestamp := 0;
         corev1.Status :=
           {| corev1.Phase := corev1.PodSucceeded;
              corev1.ContainerStatuses :=
                [ScenarioA.waitingContainer "ContainerCreating"] |} |}
      (5 * time.Minute)).
    assert (Hstuck : (true, "ContainerCreating") = (false, "")); [| done].
    apply H. simpl. apply elem_of_cons. left. reflexivity.
  - intros H.
    specialize (H (fun j => 6 * time.Minute + Z.of_nat j) ScenarioA.p1
      (5 * time.Minute) (ScenarioA.waitingContainer "ImagePullBackOff")
      "ImagePullBackOff").
    assert (Hstuck : (false, "") = (true, "ImagePullBackOff")); [| done].
    apply H.
    + simpl. apply elem_of_cons. left. reflexivity.
    + reflexivity.
    + left. exists {| corev1.Reason := "ImagePullBackOff" |}.
      split; [reflexivity |]. split; [reflexivity |].
      split; [| vm_compute; reflexivity].
      apply watched_spec. reflexivity.
Qed.

(** C6, as amended.  The classification is a function of the snapshot, the
    timeout and the readings of the clock that the checks of the call take:
    two calls whose snapshots agree on creation timestamp and status (phase
    and containers) and whose clocks agree on those readings, at most two for
    each container, give the same answer, for both inspectors and whatever
    the names and namespaces. *)
Theorem inspector_function_of_snapshot_timeout_clock
    (clock clock' : time.Clock) (pod pod' : corev1.Pod)
    (timeout : time.Duration) :
  corev1.CreationTimestamp pod = corev1.CreationTimestamp pod' ->
  corev1.Status pod = corev1.Status pod' ->
  (forall j,
     (j < readsBefore (corev1.ContainerStatuses (corev1.Status pod)))%nat ->
     clock j = clock' j) ->
  shouldRestartPod clock pod timeout = shouldRestartPod clock' pod' timeout /\
  isStuckInContainerCreating clock pod timeout
  = isStuckInContainerCreating clock' pod' timeout /\
  (readsBefore (corev1.ContainerStatuses (corev1.Status pod))
   <= 2 * length (corev1.ContainerStatuses (corev1.Status pod)))%nat.
Proof.
  intros Hc Hs Hsame. split; [| split; [| apply readsBefore_le]].
  - unfold shouldRestartPod. rewrite <- Hs.
    rewrite <- (scanContainers_ext clock' 0 pod pod') by exact Hc.
    rewrite (scanContainers_agree clock clock'); [reflexivity |].
    intros j Hj. apply Hsame. lia.
  - unfold isStuckInContainerCreating. rewrite <- Hs.
    rewrite <- (scanContainerCreating_ext clock' 0 pod pod') by exact Hc.
    apply scanContainerCreating_agree. intros j Hj. apply Hsame.
    pose proof (creatingReads_le
                  (corev1.ContainerStatuses (corev1.Status pod))). lia.
Qed.

Lemma inspector_function_of_snapshot_timeout_clock_witness :
  shouldRestartPod (fun j => 6 * time.Minute + Z.of_nat j) ScenarioA.p1
    (5 * time.Minute)
  = shouldRestartPod (fun j => 6 * time.Minute + 7 * Z.of_nat j)
      {| corev1.Name := "p2"; corev1.Namespace := "kube-system";
         corev1.CreationTimestamp := 0;
         corev1.Status := corev1.Status ScenarioA.p1 |}
      (5 * time.Minute).
Proof.
  apply (inspector_function_of_snapshot_timeout_clock
           (fun j => 6 * time.Minute + Z.of_nat j)
           (fun j => 6 * time.Minute + 7 * Z.of_nat j) ScenarioA.p1
           _ (5 * time.Minute)).
  - reflexivity.
  - reflexivity.
  - intros [| j] Hj; [reflexivity |]. vm_compute in Hj. lia.
Defined.

(** C6, as stated, fails: the same snapshot with the same timeout is healthy
    for a call made one minute after the pod's creation and stuck for a call
    made six minutes after it. *)
Lemma inspector_not_function_of_snapshot_timeout :
  ~ (forall clock clock' : time.Clock,
       shouldRestartPod clock ScenarioA.p1 (5 * time.Minute)
       = shouldRestartPod clock' ScenarioA.p1 (5 * time.Minute)).
Proof.
  intros H.
  specialize (H (fun j => 1 * time.Minute + Z.of_nat j)
                (fun j => 6 * time.Minute + Z.of_nat j)).
  vm_compute in H. discriminate H.
Qed.

(** Scenario B: a pod whose one container waits with PodInitializing is
    never called stuck, whatever the clock shows and for any timeout. *)
Example podInitializing_never_stuck (clock : time.Clock)
    (timeout : time.Duration) (pod : corev1.Pod) :
  corev1.ContainerStatuses (corev1.Status pod)
  = [ScenarioA.waitingContainer "PodInitializing"] ->
  shouldRestartPod clock pod timeout = (false, "").
Proof.
  intros Hcss. unfold shouldRestartPod. rewrite Hcss.
  by destruct (_ || _).
Qed.

(** ** The tracker: one pod *)

Lemma setRecord_lookup_eq name record (m : Tracker) :
  setRecord name record m !! name = record.
Proof.
  destruct record; simpl; [apply lookup_insert_eq | apply lookup_delete_eq].
Qed.

Lemma setRecord_lookup_ne name k record (m : Tracker) :
  k <> name -> setRecord name record m !! k = m !! k.
Proof.
  intros Hne. destruct record; simpl;
    [apply lookup_insert_ne | apply lookup_delete_ne]; congruence.
Qed.

Section OnePod.

Context (v : Variant) (cfg : Config) (c : Cycle).

(** The loop body is the tracker's contract applied to the record under the
    pod's name, followed by the events of the action it yields. *)
Lemma checkPod_update i pod (m : Tracker) :
  checkPod v cfg c i pod m =
  let verdict := inspect v (clockAt c i) pod (pendingTimeout cfg) in
  let u := update (m !! corev1.Name pod) verdict.1 verdict.2 (now c)
             (pendingTimeout cfg) in
  (setRecord (corev1.Name pod) u.1 m, perform v c i pod verdict.2 u.2).
Proof.
  unfold checkPod, update.
  destruct (inspect v (clockAt c i) pod (pendingTimeout cfg))
    as [should reason]; simpl.
  destruct should; [| reflexivity].
  destruct (m !! corev1.Name pod) as [firstSeen |] eqn:Hrec; [| reflexivity].
  destruct (pendingTimeout cfg <=? time.Sub (now c) firstSeen);
    [reflexivity |].
  simpl. by rewrite insert_id.
Qed.

Lemma checkPod_lookup_eq i pod (m : Tracker) :
  (checkPod v cfg c i pod m).1 !! corev1.Name pod =
  (update (m !! corev1.Name pod)
     (inspect v (clockAt c i) pod (pendingTimeout cfg)).1
     (inspect v (clockAt c i) pod (pendingTimeout cfg)).2
     (now c) (pendingTimeout cfg)).1.
Proof. rewrite checkPod_update. simpl. apply setRecord_lookup_eq. Qed.

Lemma checkPod_lookup_ne i pod (m : Tracker) k :
  k <> corev1.Name pod -> (checkPod v cfg c i pod m).1 !! k = m !! k.
Proof. intros Hne. rewrite checkPod_update. by apply setRecord_lookup_ne. Qed.

Lemma checkPod_events i pod (m : Tracker) :
  (checkPod v cfg c i pod m).2 =
  perform v c i pod (inspect v (clockAt c i) pod (pendingTimeout cfg)).2
    (update (m !! corev1.Name pod)
       (inspect v (clockAt c i) pod (pendingTimeout cfg)).1
       (inspect v (clockAt c i) pod (pendingTimeout cfg)).2
       (now c) (pendingTimeout cfg)).2.
Proof. rewrite checkPod_update. reflexivity. Qed.

End OnePod.

(** C3. One pass of the loop body over a pod, for the verdict
    [(stuck, reason)] of the inspector: not stuck, the record under the pod's
    name is deleted and nothing is done; stuck with no record, a record with
    first-seen [now] is inserted and the start of tracking is logged; stuck
    with a record [T0] and [now - T0 >= timeout], the record is deleted and
    the remediation is announced with the elapsed time [now - T0] (which the
    details record carries printed as whole seconds) and the current reason,
    called and its outcome logged; stuck with a record [T0] and
    [now - T0 < timeout], no change and no event. *)
Theorem checkPod_tracker_update (v : Variant) (cfg : Config) (c : Cycle)
    (i : nat) (pod : corev1.Pod) (m : Tracker) :
  let name := corev1.Name pod in
  let timeout := pendingTimeout cfg in
  let stuck := (inspect v (clockAt c i) pod timeout).1 in
  let reason := (inspect v (clockAt c i) pod timeout).2 in
  (stuck = false -> checkPod v cfg c i pod m = (delete name m, [])) /\
  (stuck = true -> m !! name = None ->
   checkPod v cfg c i pod m =
   (<[name := now c]> m, [Log (ProblemDetected name reason)])) /\
  (forall T0, stuck = true -> m !! name = Some T0 ->
     timeout <= time.Sub (now c) T0 ->
     let elapsed := time.Sub (now c) T0 in
     let call := remediate v (outcomeAt c i) (corev1.Namespace pod) name
                   reason in
     checkPod v cfg c i pod m =
     (delete name m,
      [Log (RestartingPod name elapsed reason);
       Log (ProblemPodDetails
              {| Name := name;
                 Status := corev1.Phase (corev1.Status pod);
                 Namespace := corev1.Namespace pod;
                 Duration := fmt.SprintfSeconds (time.Seconds elapsed);
                 Timestamp := now c |})]
      ++ call.1
      ++ [Log (match call.2 with
               | Some err => logError v name err
               | None => logOK v name
               end)])) /\
  (forall T0, stuck = true -> m !! name = Some T0 ->
     time.Sub (now c) T0 < timeout ->
     checkPod v cfg c i pod m = (m, [])).
Proof.
  intros name timeout stuck reason.
  assert (Hv : inspect v (clockAt c i) pod (pendingTimeout cfg)
               = (stuck, reason))
    by (subst stuck reason; by destruct (inspect _ _ _ _)).
  unfold checkPod. rewrite Hv. fold name timeout.
  split; [| split; [| split]].
  - intros ->. reflexivity.
  - intros -> ->. reflexivity.
  - intros T0 -> -> Hge.
    destruct (Z.leb_spec timeout (time.Sub (now c) T0)); [reflexivity | lia].
  - intros T0 -> -> Hlt.
    destruct (Z.leb_spec timeout (time.Sub (now c) T0)); [lia | reflexivity].
Qed.

Lemma checkPod_tracker_update_witness :
  let m : Tracker := {[ "p1" := 330 * time.Second ]} in
  let at_ k := ScenarioA.cycle [ScenarioA.p1] None k in
  checkPod restartVariant ScenarioA.cfg (at_ 0%nat) 0 ScenarioA.p1 m
  = (delete "p1" m, []) /\
  checkPod restartVariant ScenarioA.cfg (at_ 11%nat) 0 ScenarioA.p1 ∅
  = (<["p1" := 330 * time.Second]> ∅,
     [Log (ProblemDetected "p1" "ImagePullBackOff")]) /\
  (checkPod restartVariant ScenarioA.cfg (at_ 21%nat) 0 ScenarioA.p1 m).1
  = delete "p1" m /\
  checkPod restartVariant ScenarioA.cfg (at_ 20%nat) 0 ScenarioA.p1 m
  = (m, []).
Proof.
  intros m at_. split; [| split; [| split]].
  - destruct (checkPod_tracker_update restartVariant ScenarioA.cfg
                (at_ 0%nat) 0 ScenarioA.p1 m) as (H & _).
    apply H. reflexivity.
  - destruct (checkPod_tracker_update restartVariant ScenarioA.cfg
                (at_ 11%nat) 0 ScenarioA.p1 ∅) as (_ & H & _).
    apply H; reflexivity.
  - destruct (checkPod_tracker_update restartVariant ScenarioA.cfg
                (at_ 21%nat) 0 ScenarioA.p1 m) as (_ & _ & H & _).
    rewrite (H (330 * time.Second)).
    + reflexivity.
    + reflexivity.
    + reflexivity.
    + vm_compute. discriminate.
  - destruct (checkPod_tracker_update restartVariant ScenarioA.cfg
                (at_ 20%nat) 0 ScenarioA.p1 m) as (_ & _ & _ & H).
    apply (H (330 * time.Second)).
    + reflexivity.
    + reflexivity.
    + vm_compute. reflexivity.
Defined.

(** C10. The loop body works on the record under the pod's name and on no
    other, and the namespace plays no part: when two pods bear the same name,
    the record the first leaves is the record the second finds, so what is
    stored under that name after both is the tracker's contract applied
    twice to one record, and every other record is as it was. *)
Theorem tracker_keyed_by_name (v : Variant) (cfg : Config) (c : Cycle)
    (i j : nat) (p q : corev1.Pod) (m : Tracker) :
  corev1.Name p = corev1.Name q ->
  let timeout := pendingTimeout cfg in
  let vp := inspect v (clockAt c i) p timeout in
  let vq := inspect v (clockAt c j) q timeout in
  let m1 := (checkPod v cfg c i p m).1 in
  let m2 := (checkPod v cfg c j q m1).1 in
  m1 !! corev1.Name p = (update (m !! corev1.Name p) vp.1 vp.2 (now c) timeout).1 /\
  m2 !! corev1.Name p = (update (m1 !! corev1.Name p) vq.1 vq.2 (now c) timeout).1 /\
  (forall k, k <> corev1.Name p -> m1 !! k = m !! k /\ m2 !! k = m !! k).
Proof.
  intros Hname timeout vp vq m1 m2. split; [| split].
  - apply checkPod_lookup_eq.
  - subst m2. rewrite Hname. apply checkPod_lookup_eq.
  - intros k Hk. subst m1 m2.
    rewrite !checkPod_lookup_ne; [done | congruence | congruence | congruence].
Qed.

(** A healthy pod in one namespace erases the timer of a stuck pod of the
    same name in another. *)
Lemma tracker_keyed_by_name_witness :
  let stuckA := ScenarioA.p1 in
  let healthyB :=
    {| corev1.Name := "p1"; corev1.Namespace := "other";
       corev1.CreationTimestamp := 0;
       corev1.Status := {| corev1.Phase := corev1.PodRunning;
                           corev1.ContainerStatuses := [] |} |} in
  let c := ScenarioA.cycle [stuckA; healthyB] None 11 in
  (checkPod restartVariant ScenarioA.cfg c 0 stuckA ∅).1 !! "p1"
  = Some (330 * time.Second) /\
  (checkPod restartVariant ScenarioA.cfg c 1 healthyB
     (checkPod restartVariant ScenarioA.cfg c 0 stuckA ∅).1).1 !! "p1"
  = None.
Proof.
  intros stuckA healthyB c.
  destruct (tracker_keyed_by_name restartVariant ScenarioA.cfg c 0 1
              stuckA healthyB ∅) as (H1 & H2 & _).
  - reflexivity.
  - split.
    + etransitivity; [exact H1 | reflexivity].
    + etransitivity; [exact H2 |]. vm_compute. reflexivity.
Defined.

(** ** The tracker: one cycle *)

Lemma remediations_app E (l1 l2 : list Event) :
  remediations E (l1 ++ l2) = (remediations E l1 + remediations E l2)%nat.
Proof. induction l1 as [| e l1 IH]; simpl; [reflexivity | rewrite IH; lia]. Qed.

Lemma restartVariant_callsOnce : callsOnce restartVariant.
Proof.
  intros E. repeat split. intros outcome ns name reason. simpl.
  case_decide as Hname.
  - subst. by rewrite String.eqb_refl.
  - apply String.eqb_neq in Hname. by rewrite Hname.
Qed.

Lemma notifyVariant_callsOnce : callsOnce notifyVariant.
Proof.
  intros E. repeat split. intros outcome ns name reason. simpl.
  case_decide as Hname.
  - subst. by rewrite String.eqb_refl.
  - apply String.eqb_neq in Hname. by rewrite Hname.
Qed.

Lemma perform_remediations v c i pod reason a E :
  callsOnce v ->
  remediations E (perform v c i pod reason a) =
  match a with
  | ReadyToRemediate _ _ =>
      if decide (corev1.Name pod = E) then 1%nat else 0%nat
  | _ => 0%nat
  end.
Proof.
  intros Hv. destruct (Hv E) as (Hcall & Herr & Hok).
  destruct a as [| | elapsed r]; [reflexivity | reflexivity |].
  cbn [perform]. rewrite !remediations_app, Hcall. cbn [remediations].
  destruct (remediate v _ _ _ _).2; rewrite ?Herr, ?Hok; simpl; lia.
Qed.

Section OneCycle.

Context (v : Variant) (cfg : Config) (c : Cycle).

Lemma rangeItems_app i (l1 l2 : list corev1.Pod) (m : Tracker) :
  rangeItems v cfg c i (l1 ++ l2) m =
  let r1 := rangeItems v cfg c i l1 m in
  let r2 := rangeItems v cfg c (i + length l1) l2 r1.1 in
  (r2.1, r1.2 ++ r2.2).
Proof.
  revert i m. induction l1 as [| pod l1 IH]; intros i m; simpl.
  - rewrite Nat.add_0_r. by destruct (rangeItems v cfg c i l2 m).
  - rewrite IH. simpl. rewrite <- Nat.add_succ_comm, app_assoc. reflexivity.
Qed.

(** A name that is not listed: its record is not touched. *)
Lemma rangeItems_lookup_absent i items (m : Tracker) E :
  E ∉ podNames items -> (rangeItems v cfg c i items m).1 !! E = m !! E.
Proof.
  revert i m. induction items as [| pod items IH]; intros i m Hout; simpl;
    [reflexivity |].
  apply not_elem_of_cons in Hout as [Hne Hout].
  rewrite IH by exact Hout. by apply checkPod_lookup_ne.
Qed.

(** ... and no remediation call is made for it. *)
Lemma rangeItems_remediations_absent i items (m : Tracker) E :
  callsOnce v -> E ∉ podNames items ->
  remediations E (rangeItems v cfg c i items m).2 = 0%nat.
Proof.
  intros Hv. revert i m. induction items as [| pod items IH];
    intros i m Hout; simpl; [reflexivity |].
  apply not_elem_of_cons in Hout as [Hne Hout].
  rewrite remediations_app, IH by exact Hout.
  rewrite checkPod_events, perform_remediations by exact Hv.
  destruct (update _ _ _ _ _).2; [reflexivity | reflexivity |].
  case_decide; [congruence | reflexivity].
Qed.

(** Two trackers that agree on a set of names holding every listed name: the
    loop makes the same events on both and leaves them in agreement. *)
Lemma rangeItems_agree (S : list string) i items (m1 m2 : Tracker) :
  podNames items ⊆ S ->
  (forall k, k ∈ S -> m1 !! k = m2 !! k) ->
  (rangeItems v cfg c i items m1).2 = (rangeItems v cfg c i items m2).2 /\
  (forall k, k ∈ S ->
     (rangeItems v cfg c i items m1).1 !! k
     = (rangeItems v cfg c i items m2).1 !! k).
Proof.
  revert i m1 m2. induction items as [| pod items IH];
    intros i m1 m2 Hsub Hagree; simpl; [done |].
  assert (Hin : corev1.Name pod ∈ S) by (apply Hsub; left).
  assert (Hrest : podNames items ⊆ S)
    by (intros k Hk; apply Hsub; by right).
  destruct (IH (Datatypes.S i) (checkPod v cfg c i pod m1).1
              (checkPod v cfg c i pod m2).1 Hrest) as [Hev Hmap].
  - intros k Hk. destruct (decide (k = corev1.Name pod)) as [-> | Hne].
    + rewrite !checkPod_lookup_eq, (Hagree _ Hin). reflexivity.
    + rewrite !checkPod_lookup_ne by exact Hne. by apply Hagree.
  - split; [| exact Hmap].
    rewrite Hev, !checkPod_events, (Hagree _ Hin). reflexivity.
Qed.

(** The one listed pod named [E] decides what becomes of the record of [E]
    and how many remediation calls are made for [E]. *)
Lemma rangeItems_at pre pod post (m : Tracker) :
  let E := corev1.Name pod in
  let verdict := inspect v (clockAt c (length pre)) pod (pendingTimeout cfg) in
  let u := update (m !! E) verdict.1 verdict.2 (now c) (pendingTimeout cfg) in
  E ∉ podNames pre -> E ∉ podNames post ->
  (rangeItems v cfg c 0 (pre ++ pod :: post) m).1 !! E = u.1 /\
  (callsOnce v ->
   remediations E (rangeItems v cfg c 0 (pre ++ pod :: post) m).2
   = match u.2 with ReadyToRemediate _ _ => 1%nat | _ => 0%nat end).
Proof.
  intros E verdict u Hpre Hpost.
  rewrite rangeItems_app. cbn [fst snd rangeItems]. rewrite Nat.add_0_l.
  set (m0 := (rangeItems v cfg c 0 pre m).1).
  assert (Hm0 : m0 !! E = m !! E) by (by apply rangeItems_lookup_absent).
  subst u verdict. unfold E in *. clear E. split.
  - rewrite rangeItems_lookup_absent by exact Hpost.
    rewrite checkPod_lookup_eq, Hm0. reflexivity.
  - intros Hv. rewrite !remediations_app.
    rewrite !rangeItems_remediations_absent by assumption.
    rewrite checkPod_events, perform_remediations by exact Hv.
    rewrite Hm0.
    destruct (update _ _ _ _ _).2; [reflexivity | reflexivity |].
    rewrite decide_True by reflexivity. lia.
Qed.

Lemma checkPods_lookup_absent (m : Tracker) E :
  E ∉ podNames (listing c) -> (checkPods v cfg c m).1 !! E = m !! E.
Proof.
  unfold checkPods, listing. destruct (listResult c) as [items | err];
    [| reflexivity].
  apply rangeItems_lookup_absent.
Qed.

Lemma checkPods_remediations_absent (m : Tracker) E :
  callsOnce v -> E ∉ podNames (listing c) ->
  remediations E (checkPods v cfg c m).2 = 0%nat.
Proof.
  unfold checkPods, listing. destruct (listResult c) as [items | err];
    [| reflexivity].
  intros Hv Hout. cbn [snd remediations isRemediationOf].
  by rewrite rangeItems_remediations_absent.
Qed.

Lemma checkPods_at pre pod post (m : Tracker) :
  let E := corev1.Name pod in
  let verdict := inspect v (clockAt c (length pre)) pod (pendingTimeout cfg) in
  let u := update (m !! E) verdict.1 verdict.2 (now c) (pendingTimeout cfg) in
  listResult c = inl (pre ++ pod :: post) ->
  E ∉ podNames pre -> E ∉ podNames post ->
  (checkPods v cfg c m).1 !! E = u.1 /\
  (callsOnce v ->
   remediations E (checkPods v cfg c m).2
   = match u.2 with ReadyToRemediate _ _ => 1%nat | _ => 0%nat end).
Proof.
  intros E verdict u Hlist Hpre Hpost. unfold checkPods. rewrite Hlist.
  cbn [fst snd remediations isRemediationOf].
  by apply rangeItems_at.
Qed.

End OneCycle.

(** C7. When the listing call fails, [checkPods] returns at once: the
    tracker after the cycle is the tracker before it, and the cycle's events
    are the listing call and the log line of its error. *)
Theorem list_failure_leaves_tracker (v : Variant) (cfg : Config) (c : Cycle)
    (m : Tracker) (err : Error) :
  listResult c = inr err ->
  (checkPods v cfg c m).1 = m /\
  (exists call, (checkPods v cfg c m).2 = [call; Log (ListPodsError err)] /\
                forall E, isRemediationOf E call = false).
Proof.
  intros Hlist. unfold checkPods. rewrite Hlist. split; [reflexivity |].
  eexists. split; reflexivity.
Qed.

Lemma list_failure_leaves_tracker_witness :
  let m : Tracker := {[ "p1" := 330 * time.Second ]} in
  let c := {| listResult := inr "context deadline exceeded";
              now := 630 * time.Second;
              clockAt := ScenarioA.tick 21%nat;
              outcomeAt := fun _ => None |} in
  (checkPods restartVariant ScenarioA.cfg c m).1 = m.
Proof.
  intros m c.
  apply (list_failure_leaves_tracker restartVariant ScenarioA.cfg c m
           "context deadline exceeded").
  reflexivity.
Defined.

(** C5, as amended.  For a positive timeout and a name [E].  When the cycle
    lists a pod under [E], once: after the cycle [E] has a record if and only
    if the inspector called that pod stuck in this cycle and the time elapsed
    since first-seen is below the timeout, first-seen being the instant of
    the record found, or [now] when none was found; the record kept holds
    that first-seen.  When the cycle lists no pod under [E], or its listing
    failed, [E] keeps the record it had, or none. *)
Theorem record_iff_stuck_within_window (v : Variant) (cfg : Config)
    (c : Cycle) (m : Tracker) (E : string) :
  0 < pendingTimeout cfg ->
  let m' := (checkPods v cfg c m).1 in
  let firstSeen := default (now c) (m !! E) in
  (forall pre pod post,
     listResult c = inl (pre ++ pod :: post) ->
     corev1.Name pod = E ->
     E ∉ podNames pre ->
     E ∉ podNames post ->
     (is_Some (m' !! E) <->
      (inspect v (clockAt c (length pre)) pod (pendingTimeout cfg)).1 = true /\
      time.Sub (now c) firstSeen < pendingTimeout cfg) /\
     (is_Some (m' !! E) -> m' !! E = Some firstSeen)) /\
  (E ∉ podNames (listing c) -> m' !! E = m !! E).
Proof.
  intros Hpos m' firstSeen. split; [| apply checkPods_lookup_absent].
  intros pre pod post Hlist <- Hpre Hpost.
  destruct (checkPods_at v cfg c pre pod post m Hlist Hpre Hpost) as [Hrec _].
  subst m' firstSeen. rewrite Hrec. unfold update.
  destruct (inspect v (clockAt c (length pre)) pod (pendingTimeout cfg)).1.
  - destruct (m !! corev1.Name pod) as [T0 |]; simpl.
    + destruct (Z.leb_spec (pendingTimeout cfg) (time.Sub (now c) T0)); simpl.
      * split; [| by intros [? [=]]].
        split; [by intros [? [=]] | intros [_ ?]; lia].
      * split; [| done]. split; [done | eauto].
    + rewrite Sub_self. split; [| done]. split; [done | eauto].
  - simpl. split; [| by intros [? [=]]].
    split; [by intros [? [=]] | by intros [[=] _]].
Qed.

Lemma record_iff_stuck_within_window_witness :
  let m : Tracker := {[ "p1" := 330 * time.Second ]} in
  let c := ScenarioA.cycle [ScenarioA.p1] None 20 in
  is_Some ((checkPods restartVariant ScenarioA.cfg c m).1 !! "p1") <->
  (shouldRestartPod (ScenarioA.tick 20%nat 0%nat) ScenarioA.p1
     (pendingTimeout ScenarioA.cfg)).1 = true /\
  time.Sub (now c) (330 * time.Second) < pendingTimeout ScenarioA.cfg.
Proof.
  intros m c.
  destruct (record_iff_stuck_within_window restartVariant ScenarioA.cfg c m
              "p1") as [Hlisted _].
  - reflexivity.
  - destruct (Hlisted [] ScenarioA.p1 []) as [H _].
    + reflexivity.
    + reflexivity.
    + apply not_elem_of_nil.
    + apply not_elem_of_nil.
    + exact H.
Defined.

(** C5, as stated, fails: a pod is called stuck at 5m00s and is then gone
    from the cluster; after the cycle at 20m its record is still there,
    though no pod of that name was classified in that cycle and the time
    elapsed since first-seen is far above the timeout. *)
Lemma record_without_stuck_verdict :
  let m := ScenarioA.trackerAfter None 12 in
  let c := ScenarioA.cycle [] None 40 in
  let m' := (checkPods restartVariant ScenarioA.cfg c m).1 in
  ~ (is_Some (m' !! "p1") <->
     classifiedStuck restartVariant ScenarioA.cfg c "p1" /\
     (forall T0, m' !! "p1" = Some T0 ->
        time.Sub (now c) T0 < pendingTimeout ScenarioA.cfg)).
Proof.
  intros m c m' [Hto _].
  assert (Hrec : m' !! "p1" = Some (300 * time.Second))
    by (vm_compute; reflexivity).
  destruct Hto as [(i & pod & Hlisted & _) Hwin].
  - exists (300 * time.Second). exact Hrec.
  - specialize (Hwin _ Hrec). vm_compute in Hwin. discriminate Hwin.
Qed.

(** ** The tracker: a run of cycles *)

Lemma run_app v cfg (l1 l2 : list Cycle) (m : Tracker) :
  run v cfg (l1 ++ l2) m =
  let r1 := run v cfg l1 m in
  let r2 := run v cfg l2 r1.1 in
  (r2.1, r1.2 ++ r2.2).
Proof.
  revert m. induction l1 as [| c l1 IH]; intros m; simpl.
  - by destruct (run v cfg l2 m).
  - rewrite IH. reflexivity.
Qed.

Lemma run_lookup_absent v cfg (cycles : list Cycle) (m : Tracker) E :
  Forall (fun c => E ∉ podNames (listing c)) cycles ->
  (run v cfg cycles m).1 !! E = m !! E.
Proof.
  intros Hall. revert m. induction Hall as [| c cycles Hc _ IH]; intros m;
    simpl; [reflexivity |].
  rewrite IH. by apply checkPods_lookup_absent.
Qed.

(** One cycle of an episode: below the threshold the record stays and no
    call is made; at or above it the record goes and one call is made. *)
Lemma episode_step v cfg E T0 c (m : Tracker) :
  observedStuck v cfg E c -> m !! E = Some T0 ->
  (time.Sub (now c) T0 < pendingTimeout cfg ->
   (checkPods v cfg c m).1 !! E = Some T0 /\
   (callsOnce v -> remediations E (checkPods v cfg c m).2 = 0%nat)) /\
  (pendingTimeout cfg <= time.Sub (now c) T0 ->
   (checkPods v cfg c m).1 !! E = None /\
   (callsOnce v -> remediations E (checkPods v cfg c m).2 = 1%nat)).
Proof.
  intros (pre & pod & post & Hlist & <- & Hpre & Hpost & Hstuck) Hrec.
  destruct (checkPods_at v cfg c pre pod post m Hlist Hpre Hpost)
    as [Hlook Hcount].
  rewrite Hlook. rewrite Hrec, Hstuck in Hcount |- *. unfold update in *.
  split; intros Hcmp.
  - destruct (Z.leb_spec (pendingTimeout cfg) (time.Sub (now c) T0));
      [lia | done].
  - destruct (Z.leb_spec (pendingTimeout cfg) (time.Sub (now c) T0));
      [done | lia].
Qed.



(** In Scenario A the one listed pod is [p1], and it is found stuck. *)
Ltac scenario_observed :=
  exists [], ScenarioA.p1, [];
  split; [reflexivity |]; split; [reflexivity |];
  split; [apply not_elem_of_nil |]; split; [apply not_elem_of_nil |];
  vm_compute; reflexivity.



(** The events of the cycle hold, in one piece, the events of the action
    taken for the one listed pod named [E]. *)
Lemma checkPods_events_at v cfg c pre pod post (m : Tracker) :
  let E := corev1.Name pod in
  let verdict := inspect v (clockAt c (length pre)) pod (pendingTimeout cfg) in
  let u := update (m !! E) verdict.1 verdict.2 (now c) (pendingTimeout cfg) in
  listResult c = inl (pre ++ pod :: post) ->
  E ∉ podNames pre ->
  exists front back,
    (checkPods v cfg c m).2
    = front ++ perform v c (length pre) pod verdict.2 u.2 ++ back.
Proof.
  intros E verdict u Hlist Hpre. subst u verdict. unfold E in *. clear E.
  unfold checkPods. rewrite Hlist. cbn [snd].
  rewrite rangeItems_app. cbn [fst snd rangeItems]. rewrite Nat.add_0_l.
  rewrite checkPod_events.
  rewrite (rangeItems_lookup_absent v cfg c 0 pre m) by exact Hpre.
  eexists (_ :: _), _. rewrite <- app_comm_cons. reflexivity.
Qed.

(** C9. In every cycle the tracker is read and written under the listed
    names only: the record of a name that is not listed (or of any name, when
    the listing failed) is left as it is; the events of the cycle and the
    records of the listed names are the same from any two trackers that agree
    on the listed names; a record whose name stays unlisted survives any
    number of cycles; and when a pod of that name is listed again and found
    stuck, the old first-seen [T0] counts: below the threshold the record
    stays [T0] rather than restart at [now], at or above it the pod is
    remediated at first sight, with elapsed time [now - T0]. *)
Theorem unlisted_records_preserved (v : Variant) (cfg : Config) (E : string) :
  (forall c (m : Tracker),
     E ∉ podNames (listing c) -> (checkPods v cfg c m).1 !! E = m !! E) /\
  (forall c (m m' : Tracker),
     (forall k, k ∈ podNames (listing c) -> m !! k = m' !! k) ->
     (checkPods v cfg c m).2 = (checkPods v cfg c m').2 /\
     (forall k, k ∈ podNames (listing c) ->
        (checkPods v cfg c m).1 !! k = (checkPods v cfg c m').1 !! k)) /\
  (forall cycles (m : Tracker),
     Forall (fun c => E ∉ podNames (listing c)) cycles ->
     (run v cfg cycles m).1 !! E = m !! E) /\
  (forall cycles c (m : Tracker) T0,
     m !! E = Some T0 ->
     Forall (fun c => E ∉ podNames (listing c)) cycles ->
     observedStuck v cfg E c ->
     let m1 := (run v cfg cycles m).1 in
     (time.Sub (now c) T0 < pendingTimeout cfg ->
      (checkPods v cfg c m1).1 !! E = Some T0) /\
     (pendingTimeout cfg <= time.Sub (now c) T0 ->
      (checkPods v cfg c m1).1 !! E = None /\
      exists reason,
        Log (RestartingPod E (time.Sub (now c) T0) reason)
        ∈ (checkPods v cfg c m1).2)).
Proof.
  split; [| split; [| split]].
  - intros c m. apply checkPods_lookup_absent.
  - intros c m m'. unfold checkPods, listing.
    destruct (listResult c) as [items | err]; [| done].
    intros Hagree.
    destruct (rangeItems_agree v cfg c (podNames items) 0 items m m')
      as [Hev Hmap]; [done | exact Hagree |].
    cbn [fst snd]. rewrite Hev. done.
  - intros cycles m. apply run_lookup_absent.
  - intros cycles c m T0 Hrec Hall Hobs m1.
    assert (Hrec1 : m1 !! E = Some T0)
      by (subst m1; by rewrite run_lookup_absent).
    destruct (episode_step v cfg E T0 c m1 Hobs Hrec1) as [Hstay Hfire].
    split; [intros Hlt; by apply Hstay |].
    intros Hge. split; [by apply Hfire |].
    destruct Hobs as (pre & pod & post & Hlist & <- & Hpre & _ & Hstuck).
    destruct (checkPods_events_at v cfg c pre pod post m1 Hlist Hpre)
      as (front & back & ->).
    rewrite Hrec1, Hstuck. unfold update.
    destruct (Z.leb_spec (pendingTimeout cfg) (time.Sub (now c) T0)); [| lia].
    eexists. apply elem_of_app. right. apply elem_of_app. left.
    cbn [snd perform]. left.
Qed.

Lemma unlisted_records_preserved_witness :
  let m : Tracker := {[ "p1" := 330 * time.Second ]} in
  let gone := [ScenarioA.cycle [] None 12; ScenarioA.cycle [] None 13] in
  let back := ScenarioA.cycle [ScenarioA.p1] None 40 in
  let m1 := (run restartVariant ScenarioA.cfg gone m).1 in
  m1 !! "p1" = Some (330 * time.Second) /\
  (checkPods restartVariant ScenarioA.cfg back m1).1 !! "p1" = None /\
  exists reason,
    Log (RestartingPod "p1" (870 * time.Second) reason)
    ∈ (checkPods restartVariant ScenarioA.cfg back m1).2.
Proof.
  intros m gone back m1.
  destruct (unlisted_records_preserved restartVariant ScenarioA.cfg "p1")
    as (_ & _ & Hrun & Hback).
  assert (Hgone : Forall (fun c => "p1" ∉ podNames (listing c)) gone).
  { constructor; [apply not_elem_of_nil |].
    constructor; [apply not_elem_of_nil | constructor]. }
  split.
  - etransitivity; [apply (Hrun gone m Hgone) | reflexivity].
  - destruct (Hback gone back m (330 * time.Second)) as [_ Hfire].
    + reflexivity.
    + exact Hgone.
    + scenario_observed.
    + apply Hfire. vm_compute. discriminate.
Defined.

(** ** Scenario A *)

Lemma saturate_ltb (t z : Z) :
  time.minDuration <= t < time.maxDuration ->
  (t <? time.saturate z) = (t <? z).
Proof.
  unfold time.saturate, time.minDuration, time.maxDuration. intros Ht.
  repeat case_match; lia.
Qed.

Section ScenarioAFacts.

Import ScenarioA.

Context (reading : Readings) (outcome : option Error).

Lemma scenarioA_verdict (clock : time.Clock) :
  shouldRestartPod clock p1 (5 * time.Minute)
  = if 5 * time.Minute <? clock 0%nat
    then (true, "ImagePullBackOff") else (false, "").
Proof.
  unfold shouldRestartPod, p1. cbn [corev1.Phase corev1.Status corev1.ContainerStatuses].
  change (String.eqb corev1.PodPending corev1.PodPending) with true. cbn [orb].
  cbn [scanContainers]. unfold inspectContainer, waitingCheck, runningCheck, waitingContainer.
  cbn [corev1.Waiting corev1.State corev1.Running corev1.Reason corev1.CreationTimestamp].
  change (watched "ImagePullBackOff") with true. cbv iota.
  unfold time.Since, time.Sub. rewrite Z.sub_0_r.
  rewrite saturate_ltb by (vm_compute; split; [discriminate | reflexivity]).
  destruct (_ <? _); reflexivity.
Qed.

Lemma scenarioA_step k (m : Tracker) :
  let t := Z.of_nat k * (30 * time.Second) in
  checkPods restartVariant cfg (cycleAt reading [p1] outcome k) m
  = (if 5 * time.Minute <? reading k 0%nat 0%nat then
       match m !! "p1" with
       | None => (<["p1" := t]> m, [ApiListPods "default" {| metav1.LabelSelector := "" |}; Log (ProblemDetected "p1" "ImagePullBackOff")])
       | Some T0 =>
           if 5 * time.Minute <=? time.Sub t T0 then
             (delete "p1" m,
              [ApiListPods "default" {| metav1.LabelSelector := "" |};
               Log (RestartingPod "p1" (time.Sub t T0) "ImagePullBackOff");
               Log (ProblemPodDetails
                      {| Name := "p1"; Status := "Pending"; Namespace := "default";
                         Duration := fmt.SprintfSeconds (time.Seconds (time.Sub t T0));
                         Timestamp := t |});
               ApiDeletePod "default" "p1"
                 {| metav1.GracePeriodSeconds := Some 0;
                    metav1.PropagationPolicy := Some "Foreground" |};
               Log (match outcome with
                    | Some err => RestartError "p1" err
                    | None => RestartOK "p1"
                    end)])
           else (m, [ApiListPods "default" {| metav1.LabelSelector := "" |}])
       end
     else (delete "p1" m, [ApiListPods "default" {| metav1.LabelSelector := "" |}])).
Proof.
  intros t. unfold checkPods, cycleAt. cbn [listResult rangeItems].
  unfold checkPod. cbn [clockAt now outcomeAt].
  change (pendingTimeout cfg) with (5 * time.Minute).
  change (checkInterval cfg) with (30 * time.Second). fold t.
  change (inspect restartVariant) with shouldRestartPod.
  rewrite scenarioA_verdict.
  destruct (5 * time.Minute <? reading k 0%nat 0%nat); [| reflexivity].
  change (corev1.Name p1) with "p1".
  destruct (m !! "p1") as [T0 |]; [| reflexivity].
  destruct (5 * time.Minute <=? time.Sub t T0); [| reflexivity].
  destruct outcome; reflexivity.
Qed.


Lemma trackerAt_S k :
  trackerAt reading outcome (S k)
  = (checkPods restartVariant cfg (cycleAt reading [p1] outcome k)
       (trackerAt reading outcome k)).1.
Proof.
  unfold trackerAt, cyclesAt. rewrite seq_S, map_app, run_app. reflexivity.
Qed.

Hypothesis Hadm : admissible reading.

Lemma reading_bounds k :
  Z.of_nat k * (30 * time.Second) <= reading k 0%nat 0%nat
  <= Z.of_nat (S k) * (30 * time.Second).
Proof. apply Hadm. Qed.

Lemma firstStuck_cases :
  (5 * time.Minute < reading 10%nat 0%nat 0%nat /\ firstStuck reading = 10%nat) \/
  (reading 10%nat 0%nat 0%nat <= 5 * time.Minute /\ firstStuck reading = 11%nat).
Proof.
  unfold firstStuck.
  destruct (Z.ltb_spec (5 * time.Minute) (reading 10%nat 0%nat 0%nat));
    [left | right]; done.
Qed.

(** Before the first stuck verdict the pod is too young at every reading;
    from it on it is old enough at every reading. *)
Lemma scenarioA_young k :
  (k < firstStuck reading)%nat ->
  (5 * time.Minute <? reading k 0%nat 0%nat) = false.
Proof.
  intros Hk. apply Z.ltb_ge.
  pose proof (reading_bounds k) as Hb.
  change (5 * time.Minute) with 300000000000 in *.
  change (30 * time.Second) with 30000000000 in *.
  destruct firstStuck_cases as [[_ Hf] | [Hle Hf]]; rewrite Hf in Hk.
  - lia.
  - destruct (decide (k = 10%nat)) as [-> | Hne]; [exact Hle | lia].
Qed.

Lemma scenarioA_old k :
  (firstStuck reading <= k)%nat ->
  (5 * time.Minute <? reading k 0%nat 0%nat) = true.
Proof.
  intros Hk. apply Z.ltb_lt.
  pose proof (reading_bounds k) as Hb.
  change (5 * time.Minute) with 300000000000 in *.
  change (30 * time.Second) with 30000000000 in *.
  destruct firstStuck_cases as [[Hlt Hf] | [_ Hf]]; rewrite Hf in Hk.
  - destruct (decide (k = 10%nat)) as [-> | Hne]; [exact Hlt | lia].
  - lia.
Qed.

(** Up to the first stuck verdict the tracker is empty. *)
Lemma scenarioA_tracker_empty k :
  (k <= firstStuck reading)%nat -> trackerAt reading outcome k = ∅.
Proof.
  induction k as [| k IH]; intros Hk; [reflexivity |].
  rewrite trackerAt_S, scenarioA_step, scenarioA_young, IH by lia.
  reflexivity.
Qed.

Lemma scenarioA_events_before k :
  (k < firstStuck reading)%nat ->
  eventsIn reading outcome k
  = [ApiListPods "default" {| metav1.LabelSelector := "" |}].
Proof.
  intros Hk. unfold eventsIn.
  rewrite scenarioA_step, scenarioA_young by lia. reflexivity.
Qed.

Lemma scenarioA_events_first :
  eventsIn reading outcome (firstStuck reading)
  = [ApiListPods "default" {| metav1.LabelSelector := "" |};
     Log (ProblemDetected "p1" "ImagePullBackOff")].
Proof.
  unfold eventsIn.
  rewrite scenarioA_step, scenarioA_old, scenarioA_tracker_empty by lia.
  reflexivity.
Qed.

(** From the cycle after the first stuck verdict to the cycle ten intervals
    after it, the tracker holds the one record that verdict started. *)
Lemma scenarioA_tracker_open d :
  (d <= 9)%nat ->
  trackerAt reading outcome (S (firstStuck reading + d))
  = {[ "p1" := Z.of_nat (firstStuck reading) * (30 * time.Second) ]}.
Proof.
  induction d as [| d IH]; intros Hd.
  - rewrite Nat.add_0_r, trackerAt_S, scenarioA_step, scenarioA_old,
      scenarioA_tracker_empty by lia.
    reflexivity.
  - rewrite trackerAt_S, scenarioA_step, scenarioA_old by lia.
    rewrite Nat.add_succ_r, IH by lia.
    rewrite lookup_singleton_eq.
    rewrite Sub_exact, (proj2 (Z.leb_gt _ _)); [reflexivity | |];
      destruct firstStuck_cases as [[_ ->] | [_ ->]];
      unfold time.minDuration, time.maxDuration;
      change (5 * time.Minute) with 300000000000;
      change (30 * time.Second) with 30000000000; lia.
Qed.

Lemma scenarioA_events_open k :
  (firstStuck reading < k < firstStuck reading + 10)%nat ->
  eventsIn reading outcome k
  = [ApiListPods "default" {| metav1.LabelSelector := "" |}].
Proof.
  intros Hk. unfold eventsIn.
  replace k with (S (firstStuck reading + (k - firstStuck reading - 1)))
    at 2 by lia.
  rewrite scenarioA_step, scenarioA_old, scenarioA_tracker_open by lia.
  rewrite lookup_singleton_eq.
  rewrite Sub_exact, (proj2 (Z.leb_gt _ _)); [reflexivity | |];
    destruct firstStuck_cases as [[_ Hf] | [_ Hf]]; rewrite Hf in *;
    unfold time.minDuration, time.maxDuration;
    change (5 * time.Minute) with 300000000000;
    change (30 * time.Second) with 30000000000; lia.
Qed.

Lemma scenarioA_elapsed :
  time.Sub (Z.of_nat (firstStuck reading + 10) * (30 * time.Second))
    (Z.of_nat (firstStuck reading) * (30 * time.Second))
  = 5 * time.Minute.
Proof.
  rewrite Sub_exact;
    destruct firstStuck_cases as [[_ ->] | [_ ->]];
    unfold time.minDuration, time.maxDuration;
    change (5 * time.Minute) with 300000000000;
    change (30 * time.Second) with 30000000000; lia.
Qed.

Lemma scenarioA_fire :
  checkPods restartVariant cfg
    (cycleAt reading [p1] outcome (firstStuck reading + 10))
    (trackerAt reading outcome (firstStuck reading + 10))
  = (∅,
     [ApiListPods "default" {| metav1.LabelSelector := "" |};
      Log (RestartingPod "p1" (5 * time.Minute) "ImagePullBackOff");
      Log (ProblemPodDetails
             {| Name := "p1"; Status := "Pending"; Namespace := "default";
                Duration := "300 seconds";
                Timestamp :=
                  Z.of_nat (firstStuck reading + 10) * (30 * time.Second) |});
      ApiDeletePod "default" "p1"
        {| metav1.GracePeriodSeconds := Some 0;
           metav1.PropagationPolicy := Some "Foreground" |};
      Log (match outcome with
           | Some err => RestartError "p1" err
           | None => RestartOK "p1"
           end)]).
Proof.
  replace (firstStuck reading + 10)%nat
    with (S (firstStuck reading + 9)) at 2 by lia.
  rewrite scenarioA_step, scenarioA_old, scenarioA_tracker_open by lia.
  rewrite lookup_singleton_eq, scenarioA_elapsed.
  change (5 * time.Minute <=? 5 * time.Minute) with true. cbv iota.
  rewrite delete_singleton_eq. reflexivity.
Qed.

End ScenarioAFacts.

(** C1, as amended.  Scenario A, whatever the inspector's clock shows within
    each cycle (admissible readings) and whatever the outcome of the
    remediation call.  The first stuck verdict comes in the cycle at 5m00s
    when the inspector's reading in that cycle is past 5m00s, and in the
    cycle at 5m30s when it is not (the pod must be older than the timeout);
    the cycles before it do nothing but list and leave no record; that cycle
    starts the record, first-seen its own [now]; the next nine cycles leave
    the record alone; the tenth cycle after it (10m00s or 10m30s), where the
    record has reached the timeout, makes exactly one remediation call, a
    delete of [p1] with grace period 0 and foreground propagation, and leaves
    no record; at the next cycle [p1] has no record if it is not listed any
    more, and a new one, first-seen that cycle's [now], if it is listed and
    still stuck. *)
Theorem scenarioA_timeline (reading : ScenarioA.Readings)
    (outcome : option Error) :
  ScenarioA.admissible reading ->
  let listCall := ApiListPods "default" {| metav1.LabelSelector := "" |} in
  let at_ (k : nat) := Z.of_nat k * (30 * time.Second) in
  let first := ScenarioA.firstStuck reading in
  let fire := (first + 10)%nat in
  let events := ScenarioA.eventsIn reading outcome in
  let tracker := ScenarioA.trackerAt reading outcome in
  let verdict k :=
    shouldRestartPod (reading k 0%nat) ScenarioA.p1
      (pendingTimeout ScenarioA.cfg) in
  let next listed :=
    (checkPods restartVariant ScenarioA.cfg
       (ScenarioA.cycleAt reading listed outcome (S fire))
       (tracker (S fire))).1 in
  ((5 * time.Minute < reading 10%nat 0%nat 0%nat /\ first = 10%nat) \/
   (reading 10%nat 0%nat 0%nat <= 5 * time.Minute /\ first = 11%nat)) /\
  (forall k, (k < first)%nat ->
     verdict k = (false, "") /\
     events k = [listCall] /\
     tracker (S k) !! "p1" = None) /\
  verdict first = (true, "ImagePullBackOff") /\
  events first = [listCall; Log (ProblemDetected "p1" "ImagePullBackOff")] /\
  tracker (S first) !! "p1" = Some (at_ first) /\
  (forall k, (first < k < fire)%nat ->
     events k = [listCall] /\
     tracker (S k) !! "p1" = Some (at_ first)) /\
  events fire
  = [listCall;
     Log (RestartingPod "p1" (5 * time.Minute) "ImagePullBackOff");
     Log (ProblemPodDetails
            {| Name := "p1"; Status := "Pending"; Namespace := "default";
               Duration := "300 seconds";
               Timestamp := at_ fire |});
     ApiDeletePod "default" "p1"
       {| metav1.GracePeriodSeconds := Some 0;
          metav1.PropagationPolicy := Some "Foreground" |};
     Log (match outcome with
          | Some err => RestartError "p1" err
          | None => RestartOK "p1"
          end)] /\
  remediations "p1" (events fire) = 1%nat /\
  tracker (S fire) !! "p1" = None /\
  next [] !! "p1" = None /\
  next [ScenarioA.p1] !! "p1" = Some (at_ (S fire)).
Proof.
  intros Hadm. cbv zeta.
  pose proof (scenarioA_fire reading outcome Hadm) as Hfire.
  assert (Hafter : ScenarioA.trackerAt reading outcome
                     (S (ScenarioA.firstStuck reading + 10)) = ∅)
    by (rewrite trackerAt_S, Hfire; reflexivity).
  split; [exact (firstStuck_cases reading) |].
  split.
  { intros k Hk. split; [| split].
    - change (pendingTimeout ScenarioA.cfg) with (5 * time.Minute).
      rewrite scenarioA_verdict, (scenarioA_young reading Hadm) by exact Hk.
      reflexivity.
    - by apply scenarioA_events_before.
    - rewrite (scenarioA_tracker_empty reading outcome Hadm) by lia.
      apply lookup_empty. }
  split.
  { change (pendingTimeout ScenarioA.cfg) with (5 * time.Minute).
    rewrite scenarioA_verdict, (scenarioA_old reading Hadm) by lia.
    reflexivity. }
  split; [by apply scenarioA_events_first |].
  split.
  { rewrite <- (Nat.add_0_r (ScenarioA.firstStuck reading)) at 1.
    rewrite (scenarioA_tracker_open reading outcome Hadm) by lia.
    apply lookup_singleton_eq. }
  split.
  { intros k Hk. split; [by apply scenarioA_events_open |].
    replace k
      with (ScenarioA.firstStuck reading + (k - ScenarioA.firstStuck reading))%nat
      at 1 by lia.
    rewrite (scenarioA_tracker_open reading outcome Hadm) by lia.
    apply lookup_singleton_eq. }
  unfold ScenarioA.eventsIn. rewrite Hfire. cbn [snd].
  split; [reflexivity |].
  split; [by destruct outcome |].
  split; [rewrite Hafter; apply lookup_empty |].
  rewrite Hafter, !scenarioA_step.
  rewrite (scenarioA_old reading Hadm) by lia.
  rewrite lookup_empty. split; [apply lookup_empty | apply lookup_insert_eq].
Qed.

(** With the inspector reading the clock a microsecond after the cycle's
    [now], the verdict comes at 5m00s and the delete at 10m00s. *)
Lemma scenarioA_timeline_witness :
  ScenarioA.firstStuck ScenarioA.tick = 10%nat /\
  ScenarioA.trackerAfter None 11 !! "p1" = Some (5 * time.Minute) /\
  remediations "p1" (ScenarioA.eventsAt None 20) = 1%nat /\
  ScenarioA.trackerAfter None 21 !! "p1" = None.
Proof.
  assert (Hadm : ScenarioA.admissible ScenarioA.tick).
  { intros k. unfold ScenarioA.tick.
    change (checkInterval ScenarioA.cfg) with 30000000000. lia. }
  destruct (scenarioA_timeline ScenarioA.tick None Hadm)
    as (_ & _ & _ & _ & Hrec & _ & _ & Hone & Hgone & _).
  split; [reflexivity |].
  split; [exact Hrec |]. split; [exact Hone | exact Hgone].
Defined.

(** Both timelines occur: the earlier one as soon as the reading at 5m00s is
    past the cycle's [now], the later one when the clock shows the cycle's
    [now] still. *)
Example scenarioA_both_timelines :
  let still : ScenarioA.Readings :=
    fun k _ _ => Z.of_nat k * checkInterval ScenarioA.cfg in
  ScenarioA.admissible ScenarioA.tick /\
  ScenarioA.firstStuck ScenarioA.tick = 10%nat /\
  ScenarioA.admissible still /\
  ScenarioA.firstStuck still = 11%nat.
Proof.
  intros still. split; [| split; [reflexivity | split; [| reflexivity]]].
  - intros k. unfold ScenarioA.tick.
    change (checkInterval ScenarioA.cfg) with 30000000000. lia.
  - intros k. unfold still.
    change (checkInterval ScenarioA.cfg) with 30000000000. lia.
Qed.

(** C1, as stated, fails: in Scenario A no remediation call is made for [p1]
    in any cycle before 10m00s, whatever the clock shows and whatever the
    calls return, so none at or near 5m10s. *)
Lemma scenarioA_no_remediation_by_5m10s :
  ~ (exists (reading : ScenarioA.Readings) (outcome : option Error) (k : nat),
       ScenarioA.admissible reading /\
       now (ScenarioA.cycleAt reading [ScenarioA.p1] outcome k)
       < 10 * time.Minute /\
       (0 < remediations "p1" (ScenarioA.eventsIn reading outcome k))%nat).
Proof.
  intros (reading & outcome & k & Hadm & Hk & Hcall).
  assert (Hlt : (k < 20)%nat).
  { change (Z.of_nat k * 30000000000 < 600000000000) in Hk. lia. }
  destruct (firstStuck_cases reading) as [[_ Hf] | [_ Hf]];
    (destruct (Nat.lt_trichotomy k (ScenarioA.firstStuck reading))
       as [Hbefore | [-> | Hopen]];
     [ rewrite (scenarioA_events_before reading outcome Hadm) in Hcall
         by exact Hbefore
     | rewrite (scenarioA_events_first reading outcome Hadm) in Hcall
     | rewrite (scenarioA_events_open reading outcome Hadm) in Hcall by lia ];
     simpl in Hcall; lia).
Qed.

(** ** Configuration from the environment *)

Lemma fastDigits_bounds acc s n :
  0 <= acc -> strconv.fastDigits acc s = Some n ->
  acc * 10 ^ Z.of_nat (String.length s) <= n
  < (acc + 1) * 10 ^ Z.of_nat (String.length s).
Proof.
  revert acc. induction s as [| c rest IH]; intros acc Hacc; simpl.
  - intros [= <-]. lia.
  - unfold strconv.digit.
    destruct ((48 <=? Z.of_N (N_of_ascii c)) && (Z.of_N (N_of_ascii c) <=? 57))
      eqn:Hc; [| discriminate].
    apply andb_true_iff in Hc as [Hlo Hhi].
    apply Z.leb_le in Hlo, Hhi.
    intros Hd. apply IH in Hd; [| lia].
    rewrite Nat2Z.inj_succ, Z.pow_succ_r by lia.
    assert (0 < 10 ^ Z.of_nat (String.length rest)) by (apply Z.pow_pos_nonneg; lia).
    nia.
Qed.

Lemma digit_nonneg c d : strconv.digit c = Some d -> 0 <= d <= 9.
Proof.
  unfold strconv.digit.
  destruct ((48 <=? _) && _) eqn:Hr; [| discriminate].
  apply andb_true_iff in Hr as [Hlo Hhi]. apply Z.leb_le in Hlo, Hhi.
  intros [= <-]. lia.
Qed.

Lemma parseDigits_exact acc s n :
  0 <= acc -> strconv.fastDigits acc s = Some n -> n <= strconv.maxUint64 ->
  strconv.parseDigits acc s = (n, None).
Proof.
  revert acc. induction s as [| c rest IH]; intros acc Hacc; simpl.
  - by intros [= <-].
  - destruct (strconv.digit c) as [d |] eqn:Hc; [| discriminate].
    intros Hd Hn. apply digit_nonneg in Hc.
    assert (Hd0 : 0 <= acc * 10 + d) by lia.
    pose proof (fastDigits_bounds (acc * 10 + d) rest n Hd0 Hd) as [Hlow _].
    assert (0 < 10 ^ Z.of_nat (String.length rest))
      by (apply Z.pow_pos_nonneg; lia).
    assert (acc * 10 + d
            <= (acc * 10 + d) * 10 ^ Z.of_nat (String.length rest)) by nia.
    destruct (Z.ltb_spec strconv.maxUint64 (acc * 10 + d)); [lia |].
    apply IH; [lia | exact Hd | exact Hn].
Qed.

Lemma parseDigits_range acc s n :
  0 <= acc <= strconv.maxUint64 ->
  strconv.fastDigits acc s = Some n -> strconv.maxUint64 < n ->
  strconv.parseDigits acc s = (strconv.maxUint64, Some strconv.ErrRange).
Proof.
  revert acc. induction s as [| c rest IH]; intros acc Hacc; simpl.
  - intros [= <-]. lia.
  - destruct (strconv.digit c) as [d |] eqn:Hc; [| discriminate].
    intros Hd Hn. apply digit_nonneg in Hc.
    destruct (Z.ltb_spec strconv.maxUint64 (acc * 10 + d)); [reflexivity |].
    apply IH; [lia | exact Hd | exact Hn].
Qed.

Lemma parseDigits_nonDigit acc s :
  strconv.fastDigits acc s = None -> (strconv.parseDigits acc s).2 <> None.
Proof.
  revert acc. induction s as [| c rest IH]; intros acc; simpl; [discriminate |].
  destruct (strconv.digit c) as [d |]; [| done].
  intros Hd. destruct (_ <? _); [done | by apply IH].
Qed.

Lemma parseDigits_syntax acc s :
  0 <= acc ->
  (acc + 1) * 10 ^ Z.of_nat (String.length s) <= 2 ^ 64 ->
  strconv.fastDigits acc s = None ->
  strconv.parseDigits acc s = (0, Some strconv.ErrSyntax).
Proof.
  revert acc. induction s as [| c rest IH]; intros acc Hacc; simpl;
    [discriminate |].
  destruct (strconv.digit c) as [d |] eqn:Hc; [| done].
  apply digit_nonneg in Hc.
  rewrite Nat2Z.inj_succ, Z.pow_succ_r by lia.
  assert (0 < 10 ^ Z.of_nat (String.length rest)) by (apply Z.pow_pos_nonneg; lia).
  intros Hfit Hd. unfold strconv.maxUint64.
  destruct (Z.ltb_spec (2 ^ 64 - 1) (acc * 10 + d)); [nia |].
  apply IH; [lia | nia | exact Hd].
Qed.

(** On the inputs of the fast path, [Atoi] computes what [ParseInt] does. *)
Lemma atoiFast_ParseInt s :
  (String.length s < 19)%nat -> strconv.atoiFast s = strconv.ParseInt s.
Proof.
  intros Hlen. destruct s as [| c rest]; [reflexivity |].
  unfold strconv.atoiFast, strconv.ParseInt, strconv.ParseUint.
  set (body := if strconv.isSign c then rest else String c rest).
  assert (Hbody : (String.length body < 19)%nat).
  { subst body. destruct (strconv.isSign c); simpl in *; lia. }
  destruct body as [| b body']; [reflexivity |].
  set (body := String b body') in *.
  assert (Hpow : 10 ^ Z.of_nat (String.length body) <= 10 ^ 18)
    by (apply Z.pow_le_mono_r; lia).
  destruct (strconv.fastDigits 0 body) as [n |] eqn:Hd.
  - pose proof (fastDigits_bounds 0 body n (Z.le_refl 0) Hd) as [_ Hn].
    rewrite (parseDigits_exact 0 body n) by
      (first [lia | exact Hd | unfold strconv.maxUint64; lia]).
    destruct (Z.leb_spec (2 ^ 63) n); [lia |].
    destruct (Z.ltb_spec (2 ^ 63) n); [lia |].
    rewrite !andb_false_r. reflexivity.
  - rewrite parseDigits_syntax; [reflexivity | lia | lia | exact Hd].
Qed.

Lemma Atoi_ParseInt s : strconv.Atoi s = strconv.ParseInt s.
Proof.
  unfold strconv.Atoi.
  destruct (Nat.ltb_spec 0 (String.length s)); [| reflexivity].
  destruct (Nat.ltb_spec (String.length s) 19); [| reflexivity].
  by apply atoiFast_ParseInt.
Qed.

Lemma parseDigits_range_value acc s un :
  strconv.parseDigits acc s = (un, Some strconv.ErrRange) ->
  un = strconv.maxUint64.
Proof.
  revert acc. induction s as [| c rest IH]; intros acc; simpl; [discriminate |].
  destruct (strconv.digit c); [| discriminate].
  destruct (_ <? _); [by intros [= <-] | apply IH].
Qed.

(** The digit loop reads a decimal numeral as [Pos.of_uint] does. *)
Lemma fastDigits_of_uint_acc d (acc : positive) :
  strconv.fastDigits (Z.pos acc) (NilEmpty.string_of_uint d)
  = Some (Z.pos (Pos.of_uint_acc d acc)).
Proof.
  revert acc.
  induction d; intros acc;
    cbn [NilEmpty.string_of_uint Pos.of_uint_acc strconv.fastDigits];
    [reflexivity | ..];
    match goal with
    | |- context [strconv.digit ?c] =>
        let r := eval vm_compute in (strconv.digit c) in
        change (strconv.digit c) with r
    end; cbv match; rewrite <- IHd; f_equal; lia.
Qed.

Lemma fastDigits_of_uint d :
  strconv.fastDigits 0 (NilEmpty.string_of_uint d)
  = Some (Z.of_N (Pos.of_uint d)).
Proof.
  induction d;
    cbn [NilEmpty.string_of_uint Pos.of_uint strconv.fastDigits];
    [reflexivity | ..];
    match goal with
    | |- context [strconv.digit ?c] =>
        let r := eval vm_compute in (strconv.digit c) in
        change (strconv.digit c) with r
    end; cbv match; [exact IHd | ..];
    cbn [Z.of_N]; rewrite <- fastDigits_of_uint_acc; reflexivity.
Qed.

Lemma fastDigits_to_uint (p : positive) :
  strconv.fastDigits 0 (NilEmpty.string_of_uint (Pos.to_uint p))
  = Some (Z.pos p).
Proof. rewrite fastDigits_of_uint, Unsigned.of_to. reflexivity. Qed.

Lemma string_of_uint_head d :
  d <> Nil ->
  exists c rest,
    NilEmpty.string_of_uint d = String c rest /\ strconv.isSign c = false.
Proof. destruct d; [done | ..]; intros _; eexists _, _; split; reflexivity. Qed.

Lemma string_of_uint_nonnil d :
  d <> Nil -> NilZero.string_of_uint d = NilEmpty.string_of_uint d.
Proof. by destruct d. Qed.

Lemma isSign_false_neg c : strconv.isSign c = false -> Ascii.eqb c "-" = false.
Proof. unfold strconv.isSign. intros H. by apply orb_false_iff in H as [_ ?]. Qed.

(** What [ParseInt] makes of digits [body] of value [n], after the sign. *)
Lemma ParseInt_digits c rest b body n :
  (if strconv.isSign c then rest else String c rest) = String b body ->
  strconv.fastDigits 0 (String b body) = Some n ->
  strconv.ParseInt (String c rest) =
  let neg := Ascii.eqb c "-" in
  if negb neg && (2 ^ 63 <=? n) then (2 ^ 63 - 1, Some strconv.ErrRange)
  else if neg && (2 ^ 63 <? n) then (- 2 ^ 63, Some strconv.ErrRange)
  else (if neg then - n else n, None).
Proof.
  intros Hbody Hd. unfold strconv.ParseInt, strconv.ParseUint.
  rewrite Hbody. cbv zeta.
  destruct (Z.le_gt_cases n strconv.maxUint64) as [Hfit | Hbig].
  - by rewrite (parseDigits_exact 0 _ n).
  - rewrite (parseDigits_range 0 _ n);
      [| unfold strconv.maxUint64; lia | exact Hd | exact Hbig].
    unfold strconv.maxUint64 in *.
    destruct (Z.leb_spec (2 ^ 63) (2 ^ 64 - 1)); [| lia].
    destruct (Z.ltb_spec (2 ^ 63) (2 ^ 64 - 1)); [| lia].
    destruct (Z.leb_spec (2 ^ 63) n); [| lia].
    destruct (Z.ltb_spec (2 ^ 63) n); [| lia].
    by destruct (Ascii.eqb c "-").
Qed.

Lemma Atoi_unsigned c rest n :
  strconv.isSign c = false ->
  strconv.fastDigits 0 (String c rest) = Some n ->
  strconv.Atoi (String c rest) =
  if 2 ^ 63 <=? n then (2 ^ 63 - 1, Some strconv.ErrRange) else (n, None).
Proof.
  intros Hc Hd. rewrite Atoi_ParseInt.
  rewrite (ParseInt_digits c rest c rest n); [| by rewrite Hc | exact Hd].
  cbv zeta. rewrite (isSign_false_neg c Hc). cbn [negb andb]. reflexivity.
Qed.

Lemma Atoi_negative c rest n :
  strconv.fastDigits 0 (String c rest) = Some n ->
  strconv.Atoi (String "-" (String c rest)) =
  if 2 ^ 63 <? n then (- 2 ^ 63, Some strconv.ErrRange) else (- n, None).
Proof.
  intros Hd. rewrite Atoi_ParseInt.
  rewrite (ParseInt_digits "-" (String c rest) c rest n);
    [reflexivity | reflexivity | exact Hd].
Qed.

(** [Atoi] on the decimal numeral of [n]. *)
Lemma Atoi_decimal_cases (n : Z) :
  strconv.Atoi (decimal n) =
  if 2 ^ 63 <=? n then (2 ^ 63 - 1, Some strconv.ErrRange)
  else if n <? - 2 ^ 63 then (- 2 ^ 63, Some strconv.ErrRange)
  else (n, None).
Proof.
  destruct n as [| p | p]; [reflexivity | |];
    unfold decimal; cbn [Z.to_int NilZero.string_of_int];
    pose proof (Unsigned.to_uint_nonnil p) as Hnil;
    pose proof (fastDigits_to_uint p) as Hd;
    rewrite string_of_uint_nonnil by exact Hnil;
    destruct (string_of_uint_head _ Hnil) as (c & rest & Hs & Hc);
    rewrite Hs in *.
  - rewrite (Atoi_unsigned c rest (Z.pos p) Hc Hd).
    destruct (Z.leb_spec (2 ^ 63) (Z.pos p)); [reflexivity |].
    destruct (Z.ltb_spec (Z.pos p) (- 2 ^ 63)); [lia | reflexivity].
  - rewrite (Atoi_negative c rest (Z.pos p) Hd).
    destruct (Z.leb_spec (2 ^ 63) (Z.neg p)); [lia |].
    destruct (Z.ltb_spec (2 ^ 63) (Z.pos p));
      destruct (Z.ltb_spec (Z.neg p) (- 2 ^ 63)); try lia; reflexivity.
Qed.

Lemma Atoi_decimal (n : Z) :
  - 2 ^ 63 <= n < 2 ^ 63 -> strconv.Atoi (decimal n) = (n, None).
Proof.
  intros Hn. rewrite Atoi_decimal_cases.
  destruct (Z.leb_spec (2 ^ 63) n); [lia |].
  destruct (Z.ltb_spec n (- 2 ^ 63)); [lia | reflexivity].
Qed.

Lemma Atoi_decimal_range (n : Z) :
  n < - 2 ^ 63 \/ 2 ^ 63 <= n ->
  (strconv.Atoi (decimal n)).2 = Some strconv.ErrRange.
Proof.
  intros Hn. rewrite Atoi_decimal_cases.
  destruct (Z.leb_spec (2 ^ 63) n); [reflexivity |].
  destruct (Z.ltb_spec n (- 2 ^ 63)); [reflexivity | lia].
Qed.

Lemma fastDigits_nonDigit acc s :
  hasNonDigit s -> strconv.fastDigits acc s = None.
Proof.
  intros (pre & c & post & -> & Hc). revert acc.
  induction pre as [| a pre IH]; intros acc; simpl.
  - by rewrite Hc.
  - destruct (strconv.digit a); [apply IH | reflexivity].
Qed.

(** A character that is not a digit makes [Atoi] fail: with a syntax error,
    or with a range error when the digits before it already overflow. *)
Lemma Atoi_nonDigit s :
  hasNonDigit (stripSign s) -> (strconv.Atoi s).2 <> None.
Proof.
  intros Hs. rewrite Atoi_ParseInt.
  pose proof (fastDigits_nonDigit 0 _ Hs) as Hd.
  apply parseDigits_nonDigit in Hd.
  unfold strconv.ParseInt, strconv.ParseUint, stripSign in *.
  destruct s as [| c rest]; [done |].
  destruct (if strconv.isSign c then rest else String c rest) as [| b body];
    [done |].
  destruct (strconv.parseDigits 0 (String b body)) as [un [[] |]] eqn:Hp;
    [done | | done].
  apply parseDigits_range_value in Hp as ->. unfold strconv.maxUint64.
  destruct (Z.leb_spec (2 ^ 63) (2 ^ 64 - 1)); [| lia].
  destruct (Z.ltb_spec (2 ^ 63) (2 ^ 64 - 1)); [| lia].
  by destruct (Ascii.eqb c "-").
Qed.

Lemma decimal_nonempty n : decimal n <> "".
Proof.
  destruct n as [| p | p]; [done | |]; unfold decimal;
    cbn [Z.to_int NilZero.string_of_int]; [| done].
  pose proof (Unsigned.to_uint_nonnil p) as Hnil.
  rewrite string_of_uint_nonnil by exact Hnil.
  by destruct (string_of_uint_head _ Hnil) as (c & rest & -> & _).
Qed.

Lemma getEnv_empty env key def :
  os.Getenv env key = "" -> getEnv env key def = def.
Proof. unfold getEnv. intros ->. reflexivity. Qed.

Lemma getEnv_set env key def :
  os.Getenv env key <> "" -> getEnv env key def = os.Getenv env key.
Proof.
  unfold getEnv. intros Hne. apply String.eqb_neq in Hne.
  rewrite Hne. reflexivity.
Qed.

Lemma readSetting_default s env :
  os.Getenv env (settingVariable s) = "" ->
  readSetting s env = (settingDefault s, []).
Proof.
  intros Hstr. destruct s; unfold readSetting, getPendingTimeout,
    getCheckInterval; rewrite getEnv_empty by exact Hstr; reflexivity.
Qed.

Lemma readSetting_set s env :
  let str := os.Getenv env (settingVariable s) in
  str <> "" ->
  readSetting s env =
  if bool_decide ((strconv.Atoi str).2 <> None) || ((strconv.Atoi str).1 <=? 0)
  then (settingDefault s, [settingWarning s str])
  else (time.mul (strconv.Atoi str).1 (settingUnit s), []).
Proof.
  intros str Hstr. subst str.
  destruct s; cbn [settingVariable] in *;
    unfold readSetting, getPendingTimeout, getCheckInterval;
    rewrite getEnv_set by exact Hstr;
    by destruct (strconv.Atoi _).
Qed.

Lemma readSetting_rejected s env :
  let str := os.Getenv env (settingVariable s) in
  str <> "" -> (strconv.Atoi str).2 <> None ->
  readSetting s env = (settingDefault s, [settingWarning s str]).
Proof.
  intros str Hstr Herr. rewrite readSetting_set by exact Hstr. fold str.
  by rewrite bool_decide_true.
Qed.

Lemma settingUnit_pos s : 0 < settingUnit s.
Proof. by destruct s. Qed.

(** C8, as amended.  For PENDING_TIMEOUT (minutes, default 5m) and
    CHECK_INTERVAL (seconds, default 30s): a variable that is unset or empty
    gives the default and no warning; the decimal numeral of a positive [n]
    whose duration fits 64 bits gives [n] units and no warning; the numeral
    of an [n <= 0], the numeral of an [n >= 2^63], and a value with a
    character that is not a digit (a leading sign apart) give the default
    and one warning that quotes the value.  More generally, for a value that
    is not empty: what [strconv.Atoi] rejects gives the default and the
    warning, and what it accepts as [n] gives the default and the warning when
    [n <= 0], and [n] units and no warning when [n > 0] and the duration
    fits. *)
Theorem setting_from_environment (s : Setting) (env : os.Environ) :
  let str := os.Getenv env (settingVariable s) in
  let fallback := (settingDefault s, [settingWarning s str]) in
  (str = "" -> readSetting s env = (settingDefault s, [])) /\
  (forall n, str = decimal n -> 0 < n ->
     n * settingUnit s <= time.maxDuration ->
     readSetting s env = (n * settingUnit s, [])) /\
  (forall n, str = decimal n -> n <= 0 -> readSetting s env = fallback) /\
  (forall n, str = decimal n -> 2 ^ 63 <= n -> readSetting s env = fallback) /\
  (hasNonDigit (stripSign str) -> readSetting s env = fallback) /\
  (str <> "" -> (strconv.Atoi str).2 <> None -> readSetting s env = fallback) /\
  (forall n, str <> "" -> strconv.Atoi str = (n, None) ->
     (n <= 0 -> readSetting s env = fallback) /\
     (0 < n -> n * settingUnit s <= time.maxDuration ->
      readSetting s env = (n * settingUnit s, []))).
Proof.
  intros str fallback. subst fallback.
  pose proof (settingUnit_pos s) as Hunit.
  assert (Haccepted : forall n, str <> "" -> strconv.Atoi str = (n, None) ->
            (n <= 0 ->
             readSetting s env = (settingDefault s, [settingWarning s str])) /\
            (0 < n -> n * settingUnit s <= time.maxDuration ->
             readSetting s env = (n * settingUnit s, []))).
  { intros n Hne Hparse. rewrite readSetting_set by exact Hne. fold str.
    rewrite Hparse. cbn [fst snd].
    rewrite bool_decide_false by (intros H; by apply H). cbn [orb].
    split.
    - intros Hle. destruct (Z.leb_spec n 0); [reflexivity | lia].
    - intros Hpos Hfit. destruct (Z.leb_spec n 0); [lia |].
      unfold time.mul. rewrite wrap64_exact; [reflexivity |].
      unfold time.minDuration. lia. }
  split; [| split; [| split; [| split; [| split; [| split]]]]].
  - apply readSetting_default.
  - intros n Hstr Hpos Hfit.
    assert (Hne : str <> "") by (rewrite Hstr; apply decimal_nonempty).
    assert (Hn : n < 2 ^ 63) by (unfold time.maxDuration in Hfit; nia).
    apply (Haccepted n Hne); [| exact Hpos | exact Hfit].
    rewrite Hstr. apply Atoi_decimal. lia.
  - intros n Hstr Hle.
    assert (Hne : str <> "") by (rewrite Hstr; apply decimal_nonempty).
    destruct (Z.lt_ge_cases n (- 2 ^ 63)) as [Hlow | Hin].
    + apply readSetting_rejected; [exact Hne |]. fold str.
      rewrite Hstr, Atoi_decimal_range by (by left). done.
    + apply (Haccepted n Hne); [| exact Hle].
      rewrite Hstr. apply Atoi_decimal. lia.
  - intros n Hstr Hbig.
    assert (Hne : str <> "") by (rewrite Hstr; apply decimal_nonempty).
    apply readSetting_rejected; [exact Hne |]. fold str.
    rewrite Hstr, Atoi_decimal_range by (by right). done.
  - intros Hnon.
    assert (Hne : str <> "").
    { intros Heq. rewrite Heq in Hnon.
      destruct Hnon as ([| ? ?] & c & post & [=] & _). }
    apply readSetting_rejected; [exact Hne |]. fold str.
    by apply Atoi_nonDigit.
  - apply readSetting_rejected.
  - exact Haccepted.
Qed.

Lemma setting_from_environment_witness :
  readSetting CheckIntervalSetting {[ "CHECK_INTERVAL" := "-5" ]}
  = (30 * time.Second, [Log (InvalidCheckInterval "-5")]) /\
  readSetting PendingTimeoutSetting {[ "PENDING_TIMEOUT" := "abc" ]}
  = (5 * time.Minute, [Log (InvalidPendingTimeout "abc")]) /\
  readSetting PendingTimeoutSetting {[ "PENDING_TIMEOUT" := "7" ]}
  = (7 * time.Minute, []) /\
  readSetting PendingTimeoutSetting ∅ = (5 * time.Minute, []) /\
  readSetting PendingTimeoutSetting
    {[ "PENDING_TIMEOUT" := "9223372036854775808" ]}
  = (5 * time.Minute, [Log (InvalidPendingTimeout "9223372036854775808")]).
Proof.
  split; [| split; [| split; [| split]]].
  - destruct (setting_from_environment CheckIntervalSetting
                {[ "CHECK_INTERVAL" := "-5" ]}) as (_ & _ & H & _).
    apply (H (-5)); [reflexivity | lia].
  - destruct (setting_from_environment PendingTimeoutSetting
                {[ "PENDING_TIMEOUT" := "abc" ]}) as (_ & _ & _ & _ & H & _).
    apply H. exists "", "a"%char, "bc". split; reflexivity.
  - destruct (setting_from_environment PendingTimeoutSetting
                {[ "PENDING_TIMEOUT" := "7" ]}) as (_ & H & _).
    apply (H 7); [reflexivity | lia | vm_compute; discriminate].
  - destruct (setting_from_environment PendingTimeoutSetting ∅) as (H & _).
    apply H. reflexivity.
  - destruct (setting_from_environment PendingTimeoutSetting
                {[ "PENDING_TIMEOUT" := "9223372036854775808" ]})
      as (_ & _ & _ & H & _).
    apply (H 9223372036854775808); [reflexivity | lia].
Defined.

(** C8, as stated, fails: 9223372036854775808 is a positive integer string,
    and it yields the default of 5 minutes, not that many minutes. *)
Lemma huge_timeout_falls_back :
  let env : os.Environ := {[ "PENDING_TIMEOUT" := "9223372036854775808" ]} in
  os.Getenv env "PENDING_TIMEOUT" = decimal 9223372036854775808 /\
  0 < 9223372036854775808 /\
  (getPendingTimeout env).1 <> 9223372036854775808 * time.Minute.
Proof. repeat split. vm_compute. discriminate. Qed.

(** Between the two, the product wraps around: 153722868 minutes exceed 64
    bits and come out as a negative duration, without a warning. *)
Example overflowing_timeout_wraps :
  getPendingTimeout {[ "PENDING_TIMEOUT" := "153722868" ]}
  = (-9223371993709551616, []).
Proof. reflexivity. Qed.

(** * Further properties of the code *)

(** ** The inspectors *)

(** X1. The older inspector, completely: it answers (true, ContainerCreating)
    exactly when one of its readings shows the pod older than the timeout,
    and (false, none) otherwise; it takes one reading for each container
    that waits with reason ContainerCreating, so under a clock that shows
    one instant throughout the call the answer is (true, ContainerCreating)
    exactly when some container waits with that reason and the pod is older
    than the timeout; the phase, the readiness flags and the other waiting
    reasons play no part. *)
Theorem isStuckInContainerCreating_spec (clock : time.Clock)
    (pod : corev1.Pod) (timeout : time.Duration) :
  let css := corev1.ContainerStatuses (corev1.Status pod) in
  let creating :=
    exists cs w, cs ∈ css /\
                 corev1.Waiting (corev1.State cs) = Some w /\
                 corev1.Reason w = "ContainerCreating" in
  let old t := timeout < time.Sub t (corev1.CreationTimestamp pod) in
  let hit := exists j, (j < creatingReads css)%nat /\ old (clock j) in
  (isStuckInContainerCreating clock pod timeout = (true, "ContainerCreating")
   <-> hit) /\
  (isStuckInContainerCreating clock pod timeout = (false, "") <-> ~ hit) /\
  ((0 < creatingReads css)%nat <-> creating) /\
  (forall t,
     (forall j, (j < creatingReads css)%nat -> clock j = t) ->
     (isStuckInContainerCreating clock pod timeout
      = (true, "ContainerCreating") <-> creating /\ old t) /\
     (isStuckInContainerCreating clock pod timeout = (false, "")
      <-> ~ (creating /\ old t))).
Proof.
  intros css creating old hit. unfold isStuckInContainerCreating. fold css.
  pose proof (scanContainerCreating_true clock 0 pod timeout css) as Htrue.
  cbn [Nat.add] in Htrue. fold (old) in Htrue.
  change (scanContainerCreating clock 0 pod timeout css
          = (true, "ContainerCreating") <-> hit) in Htrue.
  assert (Hfalse : scanContainerCreating clock 0 pod timeout css = (false, "")
                   <-> ~ hit).
  { destruct (scanContainerCreating_cases clock 0 pod timeout css)
      as [Hc | Hc]; rewrite Hc in *.
    - split; [discriminate | intros Hno; exfalso; apply Hno; by apply Htrue].
    - split; [intros _ Hhit; by apply Htrue in Hhit | done]. }
  pose proof (creatingReads_pos css) as Hpos. fold creating in Hpos.
  assert (Hfrozen : forall t,
            (forall j, (j < creatingReads css)%nat -> clock j = t) ->
            (hit <-> creating /\ old t)).
  { intros t Hsame. split.
    - intros (j & Hj & Hold). rewrite (Hsame j Hj) in Hold.
      split; [apply Hpos; lia | exact Hold].
    - intros [Hcr Hold]. apply Hpos in Hcr. exists 0%nat.
      rewrite (Hsame 0%nat Hcr). done. }
  split; [exact Htrue |]. split; [exact Hfalse |]. split; [exact Hpos |].
  intros t Hsame. specialize (Hfrozen t Hsame).
  split; [by rewrite Htrue | by rewrite Hfalse, Hfrozen].
Qed.

Lemma scanContainers_cases clock k pod timeout css :
  (scanContainers clock k pod timeout css = (false, "") /\
   noMatchFrom clock k pod timeout css) \/
  exists pre cs post r,
    css = pre ++ cs :: post /\
    noMatchFrom clock k pod timeout pre /\
    matchesWith clock (k + readsBefore pre)%nat pod timeout cs r /\
    scanContainers clock k pod timeout css = (true, r).
Proof.
  revert k. induction css as [| cs css IH]; intros k; simpl; [by left |].
  destruct (inspectContainer clock k pod timeout cs) as [r |] eqn:Hcs.
  - right. exists [], cs, css, r. split; [done |]. split; [exact I |].
    split; [| done]. simpl. rewrite Nat.add_0_r.
    by apply inspectContainer_Some.
  - apply inspectContainer_None in Hcs.
    destruct (IH (k + readsOf cs)%nat)
      as [[Hnone Hno] | (pre & c & post & r & -> & Hpre & Hc & Hres)];
      [by left |].
    right. exists (cs :: pre), c, post, r. split; [done |].
    split; [by split |]. split; [| done].
    simpl. by rewrite Nat.add_assoc.
Qed.

Lemma matchesWith_reason clock k pod timeout cs r :
  matchesWith clock k pod timeout cs r ->
  r ∈ watchedSet \/ r = "RunningNotReady".
Proof. intros [(w & _ & _ & Hin & _) | (_ & _ & ->)]; [by left | by right]. Qed.

(** X2. Every stuck verdict of [shouldRestartPod] is justified: the answer is
    either (false, none), or (true, r) for a Pending or Running pod whose
    first matching container, in the given order, matches with [r], each
    container being judged at the readings its own checks take; and [r] is
    then one of the five watched waiting reasons or RunningNotReady, never
    empty. *)
Theorem shouldRestartPod_verdicts (clock : time.Clock) (pod : corev1.Pod)
    (timeout : time.Duration) :
  shouldRestartPod clock pod timeout = (false, "") \/
  exists pre cs post r,
    corev1.Phase (corev1.Status pod) ∈ [corev1.PodPending; corev1.PodRunning] /\
    corev1.ContainerStatuses (corev1.Status pod) = pre ++ cs :: post /\
    noMatchFrom clock 0 pod timeout pre /\
    matchesWith clock (readsBefore pre) pod timeout cs r /\
    (r ∈ watchedSet \/ r = "RunningNotReady") /\
    r <> "" /\
    shouldRestartPod clock pod timeout = (true, r).
Proof.
  unfold shouldRestartPod.
  destruct (String.eqb_spec (corev1.Phase (corev1.Status pod)) corev1.PodPending)
    as [Hp | Hp];
    [| destruct (String.eqb_spec (corev1.Phase (corev1.Status pod))
                   corev1.PodRunning) as [Hr | Hr]; [| by left]];
    cbn [orb];
    (destruct (scanContainers_cases clock 0 pod timeout
                 (corev1.ContainerStatuses (corev1.Status pod)))
       as [[Hnone _] | (pre & cs & post & r & Hcss & Hpre & Hcs & Hres)];
     [by left |]);
    right; exists pre, cs, post, r;
    (split; [rewrite ?Hp, ?Hr; set_solver |]);
    (split; [exact Hcss |]); (split; [exact Hpre |]); (split; [exact Hcs |]);
    pose proof (matchesWith_reason _ _ _ _ _ _ Hcs) as Hreason;
    (split; [exact Hreason |]); (split; [| exact Hres]);
    intros ->; destruct Hreason as [Hin | [=]];
    repeat (apply elem_of_cons in Hin as [[=] | Hin]); by apply elem_of_nil in Hin.
Qed.

Lemma scanContainers_some clock k pod timeout css cs :
  cs ∈ css ->
  (forall j, inspectContainer clock j pod timeout cs <> None) ->
  (scanContainers clock k pod timeout css).1 = true.
Proof.
  revert k. induction css as [| c css IH]; intros k Hin Hcs;
    [by apply elem_of_nil in Hin |].
  simpl. destruct (inspectContainer clock k pod timeout c) eqn:Hc; [done |].
  apply elem_of_cons in Hin as [-> | Hin];
    [by apply Hcs in Hc | by apply IH].
Qed.

(** X3. On a Pending or Running pod the newer inspector finds whatever the
    older one finds: a pod that [isStuckInContainerCreating] calls stuck is
    called stuck by [shouldRestartPod] too, under the same timeout, provided
    none of its readings is earlier than those of the older inspector (as
    when both see one clock reading). *)
Theorem shouldRestartPod_subsumes_older (clock clock' : time.Clock)
    (pod : corev1.Pod) (timeout : time.Duration) :
  corev1.Phase (corev1.Status pod) ∈ [corev1.PodPending; corev1.PodRunning] ->
  (forall i j, clock' i <= clock j) ->
  (isStuckInContainerCreating clock' pod timeout).1 = true ->
  (shouldRestartPod clock pod timeout).1 = true.
Proof.
  intros Hphase Hlater Hold. rewrite shouldRestartPod_scans by exact Hphase.
  unfold isStuckInContainerCreating in Hold.
  destruct (scanContainerCreating_cases clock' 0 pod timeout
              (corev1.ContainerStatuses (corev1.Status pod))) as [Hc | Hc];
    rewrite Hc in Hold; [| discriminate].
  apply scanContainerCreating_true in Hc as (i & Hi & Hlt).
  assert (Hpos : (0 < creatingReads
                        (corev1.ContainerStatuses (corev1.Status pod)))%nat)
    by lia.
  apply creatingReads_pos in Hpos as (cs & w & Hin & Hw & Hr).
  apply (scanContainers_some _ _ _ _ _ cs Hin). intros j.
  assert (Hm : matchesWith clock j pod timeout cs "ContainerCreating").
  { left. exists w.
    pose proof (Sub_mono _ _ (corev1.CreationTimestamp pod) (Hlater (0 + i)%nat j)).
    repeat split; [done | done | | lia].
    apply watched_spec. reflexivity. }
  apply inspectContainer_Some in Hm. congruence.
Qed.

Lemma shouldRestartPod_subsumes_older_witness :
  let creating :=
    {| corev1.Name := "web-0"; corev1.Namespace := "default";
       corev1.CreationTimestamp := 0;
       corev1.Status :=
         {| corev1.Phase := corev1.PodPending;
            corev1.ContainerStatuses :=
              [ScenarioA.waitingContainer "ContainerCreating"] |} |} in
  (shouldRestartPod (fun j => 7 * time.Minute + Z.of_nat j) creating
     (5 * time.Minute)).1 = true.
Proof.
  intros creating.
  apply (shouldRestartPod_subsumes_older
           (fun j => 7 * time.Minute + Z.of_nat j)
           (fun _ => 6 * time.Minute) creating (5 * time.Minute)).
  - simpl. apply elem_of_cons. left. reflexivity.
  - intros i j. change (6 * time.Minute) with 360000000000.
    change (7 * time.Minute) with 420000000000. lia.
  - reflexivity.
Defined.

Lemma inspectContainer_later_shorter clock clock' k pod timeout timeout' cs r :
  (forall j, clock j <= clock' j) -> timeout' <= timeout ->
  inspectContainer clock k pod timeout cs = Some r ->
  inspectContainer clock' k pod timeout' cs <> None.
Proof.
  intros Hclock Htimeout Hcs.
  apply inspectContainer_Some in Hcs.
  destruct (inspectContainer clock' k pod timeout' cs) eqn:Hcs'; [done |].
  apply inspectContainer_None in Hcs' as [Hw Hr]. exfalso.
  destruct Hcs as [(w & Hwait & Hreason & Hin & Hlt) | (_ & (ru & Hrun & Hready & Hlt) & _)].
  - apply (Hw r). exists w.
    pose proof (Sub_mono _ _ (corev1.CreationTimestamp pod) (Hclock k)).
    repeat split; [done | done | done | lia].
  - apply Hr. exists ru.
    pose proof (Sub_mono _ _ (corev1.StartedAt ru)
                  (Hclock (k + waitingReads cs)%nat)).
    repeat split; [done | done | lia].
Qed.

(** X4. For a fixed snapshot, [shouldRestartPod] is monotone: a pod called
    stuck stays stuck when every reading is as late or later and under any
    shorter timeout (the reason may change, the verdict does not). *)
Theorem shouldRestartPod_monotone (clock clock' : time.Clock)
    (pod : corev1.Pod) (timeout timeout' : time.Duration) :
  (forall j, clock j <= clock' j) -> timeout' <= timeout ->
  (shouldRestartPod clock pod timeout).1 = true ->
  (shouldRestartPod clock' pod timeout').1 = true.
Proof.
  intros Hclock Htimeout. unfold shouldRestartPod.
  destruct (_ || _); [| done].
  generalize 0%nat as k.
  induction (corev1.ContainerStatuses (corev1.Status pod)) as [| cs css IH];
    intros k; simpl; [done |].
  destruct (inspectContainer clock k pod timeout cs) as [r |] eqn:Hcs.
  - intros _.
    pose proof (inspectContainer_later_shorter _ _ _ _ _ _ _ _
                  Hclock Htimeout Hcs).
    by destruct (inspectContainer clock' k pod timeout' cs).
  - intros Hrest.
    destruct (inspectContainer clock' k pod timeout' cs); [done | by apply IH].
Qed.

Lemma shouldRestartPod_monotone_witness :
  (shouldRestartPod (fun j => 9 * time.Minute + 2 * Z.of_nat j) ScenarioA.p1
     (2 * time.Minute)).1 = true.
Proof.
  apply (shouldRestartPod_monotone
           (fun j => 6 * time.Minute + Z.of_nat j)
           (fun j => 9 * time.Minute + 2 * Z.of_nat j)
           ScenarioA.p1 (5 * time.Minute) (2 * time.Minute)).
  - intros j. change (6 * time.Minute) with 360000000000.
    change (9 * time.Minute) with 540000000000. lia.
  - vm_compute. discriminate.
  - reflexivity.
Defined.

(** X5. What [shouldRestartPod] never calls stuck: a pod none of whose
    containers is waiting or running-but-not-ready (terminated containers and
    ready running ones never count, nor does an empty status list); a pod
    that at none of the readings is older than the timeout and whose unready
    running containers all started, at every reading, no longer ago than the
    timeout; and any pod at all once the timeout is the largest duration. *)
Theorem shouldRestartPod_never_stuck (clock : time.Clock) (pod : corev1.Pod)
    (timeout : time.Duration) :
  let css := corev1.ContainerStatuses (corev1.Status pod) in
  ((forall cs, cs ∈ css ->
      corev1.Waiting (corev1.State cs) = None /\
      (corev1.Running (corev1.State cs) = None \/ corev1.Ready cs = true)) ->
   shouldRestartPod clock pod timeout = (false, "")) /\
  ((forall j, time.Sub (clock j) (corev1.CreationTimestamp pod) <= timeout) ->
   (forall j cs running, cs ∈ css ->
      corev1.Running (corev1.State cs) = Some running ->
      corev1.Ready cs = false ->
      time.Sub (clock j) (corev1.StartedAt running) <= timeout) ->
   shouldRestartPod clock pod timeout = (false, "")) /\
  (time.maxDuration <= timeout ->
   shouldRestartPod clock pod timeout = (false, "")).
Proof.
  intros css.
  assert (Hall : (forall j cs, cs ∈ css -> noMatch clock j pod timeout cs) ->
                 shouldRestartPod clock pod timeout = (false, "")).
  { intros Hno. unfold shouldRestartPod. destruct (_ || _); [| done].
    by apply scanContainers_none, noMatchFrom_all. }
  assert (Hyoung :
    (forall j, time.Sub (clock j) (corev1.CreationTimestamp pod) <= timeout) ->
    (forall j cs running, cs ∈ css ->
       corev1.Running (corev1.State cs) = Some running ->
       corev1.Ready cs = false ->
       time.Sub (clock j) (corev1.StartedAt running) <= timeout) ->
    shouldRestartPod clock pod timeout = (false, "")).
  { intros Hage Hstart. apply Hall. intros j cs Hin. split.
    - intros r (w & _ & _ & _ & Hlt). specialize (Hage j). lia.
    - intros (ru & Hrun & Hready & Hlt).
      specialize (Hstart (j + waitingReads cs)%nat cs ru Hin Hrun Hready).
      lia. }
  split; [| split; [exact Hyoung |]].
  - intros Hquiet. apply Hall. intros j cs Hin.
    destruct (Hquiet cs Hin) as [Hw Hr]. split.
    + intros r (w & Hw' & _). congruence.
    + intros (ru & Hrun & Hready & _). destruct Hr; congruence.
  - intros Hmax. apply Hyoung.
    + intros j.
      pose proof (saturate_range (clock j - corev1.CreationTimestamp pod)).
      unfold time.Sub. lia.
    + intros j cs ru _ _ _.
      pose proof (saturate_range (clock j - corev1.StartedAt ru)).
      unfold time.Sub. lia.
Qed.

(** ** What a cycle does to the outside *)

(** An event of the loop comes from the pass over one listed pod. *)
Lemma rangeItems_events_inv v cfg c i items (m : Tracker) e :
  e ∈ (rangeItems v cfg c i items m).2 ->
  exists j pod (m' : Tracker),
    items !! j = Some pod /\ e ∈ (checkPod v cfg c (i + j) pod m').2.
Proof.
  revert i m. induction items as [| pod items IH]; intros i m; simpl.
  - intros Hin. by apply elem_of_nil in Hin.
  - intros Hin. apply elem_of_app in Hin as [Hin | Hin].
    + exists 0%nat, pod, m. rewrite Nat.add_0_r. done.
    + apply IH in Hin as (j & p & m' & Hj & He).
      exists (S j), p, m'. rewrite <- Nat.add_succ_comm. done.
Qed.

(** An event of one pass over a pod is the notice that tracking starts, or
    belongs to a remediation whose record had reached the timeout; in both
    cases the inspector called the pod stuck. *)
Lemma checkPod_events_inv v cfg c i pod (m : Tracker) e :
  e ∈ (checkPod v cfg c i pod m).2 ->
  let verdict := inspect v (clockAt c i) pod (pendingTimeout cfg) in
  verdict.1 = true /\
  (e = Log (ProblemDetected (corev1.Name pod) verdict.2) \/
   exists T0,
     m !! corev1.Name pod = Some T0 /\
     pendingTimeout cfg <= time.Sub (now c) T0 /\
     e ∈ perform v c i pod verdict.2
           (ReadyToRemediate (time.Sub (now c) T0) verdict.2)).
Proof.
  rewrite checkPod_events. unfold update. cbv zeta.
  destruct (inspect v (clockAt c i) pod (pendingTimeout cfg)) as [stuck reason].
  cbn [fst snd]. destruct stuck; [| intros Hin; by apply elem_of_nil in Hin].
  destruct (m !! corev1.Name pod) as [T0 |] eqn:Hrec.
  - destruct (Z.leb_spec (pendingTimeout cfg) (time.Sub (now c) T0));
      cbn [snd]; [| intros Hin; by apply elem_of_nil in Hin].
    intros Hin. split; [done |]. right. exists T0. done.
  - cbn [snd perform]. intros Hin. apply list_elem_of_singleton in Hin.
    split; [done | by left].
Qed.

Lemma checkPods_events_inv v cfg c (m : Tracker) e :
  e ∈ (checkPods v cfg c m).2 ->
  (exists opts, e = ApiListPods (namespace cfg) opts) \/
  (exists err, e = Log (ListPodsError err)) \/
  exists i pod (m' : Tracker),
    listing c !! i = Some pod /\ e ∈ (checkPod v cfg c i pod m').2.
Proof.
  unfold checkPods, listing. destruct (listResult c) as [items | err]; cbn [snd].
  - intros Hin. apply elem_of_cons in Hin as [-> | Hin]; [left; eauto |].
    right. right. apply rangeItems_events_inv in Hin as (j & pod & m' & Hj & He).
    eauto.
  - intros Hin. apply elem_of_cons in Hin as [-> | Hin]; [left; eauto |].
    apply list_elem_of_singleton in Hin as ->. right. left. eauto.
Qed.

(** X6. The restarting variant deletes only what it was shown: every delete
    call of a cycle names the namespace and the name of a pod of that cycle's
    listing which the inspector called stuck in that cycle, and asks for
    grace period 0 and foreground propagation. *)
Theorem deletes_only_listed_stuck_pods (cfg : Config) (c : Cycle)
    (m : Tracker) (ns name : string) (opts : metav1.DeleteOptions) :
  ApiDeletePod ns name opts ∈ (checkPods restartVariant cfg c m).2 ->
  exists i pod,
    listing c !! i = Some pod /\
    corev1.Namespace pod = ns /\ corev1.Name pod = name /\
    (shouldRestartPod (clockAt c i) pod (pendingTimeout cfg)).1 = true /\
    opts = {| metav1.GracePeriodSeconds := Some 0;
              metav1.PropagationPolicy :=
                Some metav1.DeletePropagationForeground |}.
Proof.
  intros Hin.
  apply checkPods_events_inv in Hin
    as [[? [=]] | [[? [=]] | (i & pod & m' & Hlisted & Hin)]].
  apply checkPod_events_inv in Hin as [Hstuck [[=] | (T0 & _ & _ & Hin)]].
  exists i, pod. split; [exact Hlisted |].
  cbn [perform remediate restartVariant restartPod fst snd] in Hin.
  repeat (apply elem_of_cons in Hin as [Hin | Hin]; [try discriminate Hin |]).
  - injection Hin as <- <- <-. done.
  - by apply elem_of_nil in Hin.
Qed.

Lemma deletes_only_listed_stuck_pods_witness :
  let m : Tracker := {[ "p1" := 330 * time.Second ]} in
  let c := ScenarioA.cycle [ScenarioA.p1] None 21 in
  exists i pod,
    listing c !! i = Some pod /\
    corev1.Namespace pod = "default" /\ corev1.Name pod = "p1" /\
    (shouldRestartPod (clockAt c i) pod (pendingTimeout ScenarioA.cfg)).1
    = true /\
    {| metav1.GracePeriodSeconds := Some 0;
       metav1.PropagationPolicy := Some "Foreground" |}
    = {| metav1.GracePeriodSeconds := Some 0;
         metav1.PropagationPolicy :=
           Some metav1.DeletePropagationForeground |}.
Proof.
  intros m c.
  apply (deletes_only_listed_stuck_pods ScenarioA.cfg c m).
  vm_compute. do 3 apply list_elem_of_further. apply list_elem_of_here.
Defined.

(** X7. The notifying variant never calls the orchestrator to delete: no
    cycle of any run holds a delete call; what it does for a stuck pod is the
    stub's log line. *)
Theorem notify_variant_never_deletes (cfg : Config) (cycles : list Cycle)
    (m : Tracker) :
  Forall (fun trace => forall ns name opts, ApiDeletePod ns name opts ∉ trace)
    (run notifyVariant cfg cycles m).2.
Proof.
  revert m. induction cycles as [| c cycles IH]; intros m; simpl;
    constructor; [| apply IH].
  intros ns name opts Hin.
  apply checkPods_events_inv in Hin
    as [[? [=]] | [[? [=]] | (i & pod & m' & _ & Hin)]].
  apply checkPod_events_inv in Hin as [_ [[=] | (T0 & _ & _ & Hin)]].
  cbn [perform remediate notifyVariant notifyAPI fst snd] in Hin.
  repeat (apply elem_of_cons in Hin as [Hin | Hin]; [discriminate Hin |]).
  by apply elem_of_nil in Hin.
Qed.

(** X8. No restart is announced early: in both variants, every
    "Restarting pod" line of a cycle reports a stuck time that is at least the
    timeout, and every "Problem pod details" line carries the cycle's [now]
    and, as its duration, such a stuck time printed as whole seconds. *)
Theorem announced_stuck_time_reaches_timeout (restarting : bool)
    (cfg : Config) (c : Cycle) (m : Tracker) :
  let v := if restarting then restartVariant else notifyVariant in
  Forall (fun e =>
            (forall name stuck reason,
               e = Log (RestartingPod name stuck reason) ->
               pendingTimeout cfg <= stuck) /\
            (forall ps,
               e = Log (ProblemPodDetails ps) ->
               Timestamp ps = now c /\
               exists stuck,
                 pendingTimeout cfg <= stuck /\
                 Duration ps = fmt.SprintfSeconds (time.Seconds stuck)))
    (checkPods v cfg c m).2.
Proof.
  intros v. apply Forall_forall. intros e Hin.
  apply checkPods_events_inv in Hin
    as [[? ->] | [[? ->] | (i & pod & m' & _ & Hin)]]; [done | done |].
  apply checkPod_events_inv in Hin as [_ [-> | (T0 & _ & Hge & Hin)]]; [done |].
  subst v. destruct restarting;
    cbn [perform remediate restartVariant notifyVariant restartPod notifyAPI
         fst snd logError logOK] in Hin;
    repeat (apply elem_of_cons in Hin as [-> | Hin];
            [split; [intros ? ? ? [=]; subst; try done
                    | intros ? [=]; subst;
                      try (split; [reflexivity | eexists; split;
                                                 [exact Hge | reflexivity]])] |]);
    try (by apply elem_of_nil in Hin);
    try (destruct outcomeAt; done).
Qed.

(** The printed number of seconds is rounded, half to even, so it can fall
    below the duration it stands for. *)
Example details_duration_is_rounded :
  fmt.SprintfSeconds (time.Seconds (86300 * time.Millisecond)) = "86 seconds" /\
  fmt.SprintfSeconds (time.Seconds (2500 * time.Millisecond)) = "2 seconds" /\
  fmt.SprintfSeconds (time.Seconds (3500 * time.Millisecond)) = "4 seconds" /\
  fmt.SprintfSeconds (time.Seconds (5 * time.Minute)) = "300 seconds".
Proof. repeat split; vm_compute; reflexivity. Qed.

(** X9. Every cycle begins with one listing call and makes no other; with
    the configuration read from the environment, that call is scoped to
    NAMESPACE, or to "default" when NAMESPACE is unset or empty, so never to
    the empty namespace that would mean all namespaces, and it carries
    LABEL_SELECTOR as it is. *)
Theorem one_list_call_per_cycle (restarting : bool) (env : os.Environ)
    (c : Cycle) (m : Tracker) :
  let v := if restarting then restartVariant else notifyVariant in
  let cfg := (loadConfig env).1 in
  namespace cfg <> "" /\
  namespace cfg = (if decide (os.Getenv env "NAMESPACE" = "")
                   then "default" else os.Getenv env "NAMESPACE") /\
  exists rest,
    (checkPods v cfg c m).2
    = ApiListPods (namespace cfg)
        {| metav1.LabelSelector := os.Getenv env "LABEL_SELECTOR" |} :: rest /\
    forall ns opts, ApiListPods ns opts ∉ rest.
Proof.
  intros v cfg.
  assert (Hns : namespace cfg = (if decide (os.Getenv env "NAMESPACE" = "")
                                 then "default" else os.Getenv env "NAMESPACE")).
  { subst cfg. cbn [loadConfig fst namespace]. unfold getEnv.
    case_decide as Hempty.
    - by rewrite Hempty.
    - apply String.eqb_neq in Hempty. by rewrite Hempty. }
  split; [rewrite Hns; by case_decide |]. split; [exact Hns |].
  assert (Hsel : (if negb (String.eqb (labelSelector cfg) "")
                  then labelSelector cfg else "")
                 = os.Getenv env "LABEL_SELECTOR").
  { subst cfg. cbn [loadConfig fst labelSelector].
    by destruct (String.eqb_spec (os.Getenv env "LABEL_SELECTOR") ""). }
  unfold checkPods. rewrite Hsel.
  destruct (listResult c) as [items | err]; cbn [snd]; eexists; (split; [done |]).
  - intros ns opts Hin.
    apply rangeItems_events_inv in Hin as (j & pod & m' & _ & Hin).
    apply checkPod_events_inv in Hin as [_ [[=] | (T0 & _ & _ & Hin)]].
    subst v. destruct restarting;
      cbn [perform remediate restartVariant notifyVariant restartPod notifyAPI
           fst snd] in Hin;
      repeat (apply elem_of_cons in Hin as [Hin | Hin]; [discriminate Hin |]);
      by apply elem_of_nil in Hin.
  - intros ns opts Hin. apply list_elem_of_singleton in Hin. discriminate Hin.
Qed.

(** ** The outcome of a remediation call *)

Lemma rangeItems_outcome_blind v cfg c c' i items (m : Tracker) :
  now c = now c' -> (forall k, clockAt c k = clockAt c' k) ->
  (rangeItems v cfg c i items m).1 = (rangeItems v cfg c' i items m).1 /\
  (callsOnce v -> forall E,
     remediations E (rangeItems v cfg c i items m).2
     = remediations E (rangeItems v cfg c' i items m).2).
Proof.
  intros Hnow Hclock. revert i m.
  induction items as [| pod items IH]; intros i m; simpl; [done |].
  assert (Hstep : (checkPod v cfg c i pod m).1 = (checkPod v cfg c' i pod m).1).
  { rewrite !checkPod_update. cbn [fst]. by rewrite Hnow, Hclock. }
  rewrite Hstep. destruct (IH (S i) (checkPod v cfg c' i pod m).1) as [Hm Hev].
  split; [exact Hm |]. intros Hv E.
  rewrite !remediations_app, (Hev Hv E). f_equal.
  rewrite !checkPod_events, !perform_remediations by exact Hv.
  by rewrite Hnow, Hclock.
Qed.

(** X10. Whether a remediation call succeeds or fails changes nothing but
    the log: two cycles with the same listing and clock readings leave the
    same tracker and make the same number of remediation calls for every
    name, whatever the outcomes of their calls; in particular a failed call
    is not retried and its record is dropped all the same. *)
Theorem remediation_outcome_only_logged (restarting : bool) (cfg : Config)
    (c c' : Cycle) (m : Tracker) :
  let v := if restarting then restartVariant else notifyVariant in
  listResult c = listResult c' ->
  now c = now c' ->
  (forall k, clockAt c k = clockAt c' k) ->
  (checkPods v cfg c m).1 = (checkPods v cfg c' m).1 /\
  (forall E, remediations E (checkPods v cfg c m).2
             = remediations E (checkPods v cfg c' m).2).
Proof.
  intros v Hlist Hnow Hclock.
  assert (Hv : callsOnce v).
  { subst v. destruct restarting;
      [apply restartVariant_callsOnce | apply notifyVariant_callsOnce]. }
  unfold checkPods. rewrite <- Hlist.
  destruct (listResult c) as [items | err]; [| done].
  destruct (rangeItems_outcome_blind v cfg c c' 0 items m Hnow Hclock)
    as [Hm Hev].
  cbn [fst snd remediations isRemediationOf]. split; [exact Hm |].
  intros E. by rewrite (Hev Hv E).
Qed.

Lemma remediation_outcome_only_logged_witness :
  let m : Tracker := {[ "p1" := 330 * time.Second ]} in
  let ok := ScenarioA.cycle [ScenarioA.p1] None 21 in
  let failed := ScenarioA.cycle [ScenarioA.p1] (Some "forbidden") 21 in
  (checkPods restartVariant ScenarioA.cfg ok m).1
  = (checkPods restartVariant ScenarioA.cfg failed m).1 /\
  (forall E, remediations E (checkPods restartVariant ScenarioA.cfg ok m).2
             = remediations E
                 (checkPods restartVariant ScenarioA.cfg failed m).2).
Proof.
  intros m ok failed.
  apply (remediation_outcome_only_logged true ScenarioA.cfg ok failed m);
    reflexivity.
Defined.

(** ** Where records come from *)

Lemma checkPod_provenance v cfg c i pod (m : Tracker) E T :
  listing c !! i = Some pod ->
  (checkPod v cfg c i pod m).1 !! E = Some T ->
  m !! E = Some T \/ (classifiedStuck v cfg c E /\ T = now c).
Proof.
  intros Hlisted. destruct (decide (E = corev1.Name pod)) as [-> | Hne].
  - rewrite checkPod_lookup_eq. unfold update.
    destruct (inspect v (clockAt c i) pod (pendingTimeout cfg)).1 eqn:Hstuck;
      [| discriminate].
    destruct (m !! corev1.Name pod) as [T0 |].
    + destruct (_ <=? _); [discriminate | by left].
    + intros [= <-]. right. split; [| done]. by exists i, pod.
  - rewrite checkPod_lookup_ne by exact Hne. by left.
Qed.

Lemma rangeItems_provenance v cfg c i items (m : Tracker) E T :
  (forall j pod, items !! j = Some pod -> listing c !! (i + j)%nat = Some pod) ->
  (rangeItems v cfg c i items m).1 !! E = Some T ->
  m !! E = Some T \/ (classifiedStuck v cfg c E /\ T = now c).
Proof.
  revert i m. induction items as [| pod items IH]; intros i m Hsuffix; simpl;
    [by left |].
  intros Hrec. apply IH in Hrec as [Hrec | Hnew]; [| by right |].
  - apply (checkPod_provenance v cfg c i pod m E T); [| exact Hrec].
    specialize (Hsuffix 0%nat pod eq_refl). by rewrite Nat.add_0_r in Hsuffix.
  - intros j p Hj. rewrite Nat.add_succ_comm. by apply (Hsuffix (S j)).
Qed.

Lemma checkPods_provenance v cfg c (m : Tracker) E T :
  (checkPods v cfg c m).1 !! E = Some T ->
  m !! E = Some T \/ (classifiedStuck v cfg c E /\ T = now c).
Proof.
  unfold checkPods. destruct (listResult c) as [items | err] eqn:Hlist;
    [| by left].
  cbn [fst]. apply rangeItems_provenance.
  intros j pod Hj. unfold listing. by rewrite Hlist.
Qed.

Lemma run_provenance v cfg cycles (m : Tracker) E T :
  (run v cfg cycles m).1 !! E = Some T ->
  m !! E = Some T \/
  exists c, c ∈ cycles /\ classifiedStuck v cfg c E /\ T = now c.
Proof.
  revert m. induction cycles as [| c cycles IH]; intros m; simpl; [by left |].
  intros Hrec. apply IH in Hrec as [Hrec | (c0 & Hin & Hc0)].
  - apply checkPods_provenance in Hrec as [Hrec | Hnew]; [by left |].
    right. exists c. split; [by left | done].
  - right. exists c0. split; [by right | done].
Qed.

(** X11. Every record has a source: after any run of a fresh process, a
    record under a name holds the [now] of one of the run's cycles, a cycle
    that listed a pod of that name which the inspector called stuck. *)
Theorem records_come_from_stuck_verdicts (v : Variant) (cfg : Config)
    (cycles : list Cycle) (E : string) (T : time.Time) :
  (run v cfg cycles ∅).1 !! E = Some T ->
  exists c, c ∈ cycles /\ classifiedStuck v cfg c E /\ T = now c.
Proof.
  intros Hrec. apply run_provenance in Hrec as [Hrec | Hsrc]; [| exact Hsrc].
  by rewrite lookup_empty in Hrec.
Qed.

Lemma records_come_from_stuck_verdicts_witness :
  exists c, c ∈ ScenarioA.cycles None 12 /\
            classifiedStuck restartVariant ScenarioA.cfg c "p1" /\
            300 * time.Second = now c.
Proof.
  apply (records_come_from_stuck_verdicts restartVariant ScenarioA.cfg
           (ScenarioA.cycles None 12) "p1" (300 * time.Second)).
  vm_compute. reflexivity.
Defined.

(** A listing with distinct names splits around the pod of a listed name. *)
Lemma listing_split (items : list corev1.Pod) E :
  NoDup (podNames items) -> E ∈ podNames items ->
  exists pre pod post,
    items = pre ++ pod :: post /\ corev1.Name pod = E /\
    (E ∉ podNames pre) /\ (E ∉ podNames post).
Proof.
  intros Hnodup Hin. unfold podNames in *.
  apply list_elem_of_fmap in Hin as (pod & -> & Hin).
  apply list_elem_of_split in Hin as (pre & post & ->).
  exists pre, pod, post. split; [done |]. split; [done |].
  rewrite fmap_app, fmap_cons in Hnodup.
  apply NoDup_app in Hnodup as (_ & Hpre & Hpost).
  apply NoDup_cons in Hpost as [Hpost _].
  split; [| exact Hpost].
  intros Hin. apply (Hpre _ Hin). by left.
Qed.

(** A remediation call in a cycle with distinct names: the pod was called
    stuck, its record was there before the cycle and had reached the timeout,
    and the record is gone after the cycle. *)
Lemma remediation_inv v cfg c (m : Tracker) E :
  callsOnce v -> NoDup (podNames (listing c)) ->
  (1 <= remediations E (checkPods v cfg c m).2)%nat ->
  classifiedStuck v cfg c E /\
  (checkPods v cfg c m).1 !! E = None /\
  exists T0, m !! E = Some T0 /\ pendingTimeout cfg <= time.Sub (now c) T0.
Proof.
  intros Hv Hnodup Hcall.
  destruct (decide (E ∈ podNames (listing c))) as [Hin | Hout];
    [| rewrite checkPods_remediations_absent in Hcall by done; lia].
  destruct (listing_split _ _ Hnodup Hin)
    as (pre & pod & post & Hitems & <- & Hpre & Hpost).
  assert (Hlist : listResult c = inl (pre ++ pod :: post)).
  { unfold listing in Hitems, Hin. destruct (listResult c); [by subst |].
    by apply elem_of_nil in Hin. }
  destruct (checkPods_at v cfg c pre pod post m Hlist Hpre Hpost)
    as [Hlook Hcount].
  rewrite (Hcount Hv) in Hcall. rewrite Hlook. unfold update in *.
  destruct (inspect v (clockAt c (length pre)) pod (pendingTimeout cfg)).1
    eqn:Hstuck; [| cbn in Hcall; lia].
  destruct (m !! corev1.Name pod) as [T0 |]; [| cbn in Hcall; lia].
  destruct (Z.leb_spec (pendingTimeout cfg) (time.Sub (now c) T0));
    [| cbn in Hcall; lia].
  split; [| split; [done | by exists T0]].
  exists (length pre), pod. rewrite Hitems.
  split; [| done]. by rewrite list_lookup_middle.
Qed.

(** X12. A pod is remediated only on a second stuck verdict: when a cycle of
    a fresh process (its listing with distinct names) makes a remediation
    call for a name, the inspector called a pod of that name stuck in this
    cycle and in an earlier cycle of the run, and the two cycles are at least
    the timeout apart; so nothing is remediated in the cycle that first finds
    it stuck. *)
Theorem remediation_needs_two_verdicts (restarting : bool) (cfg : Config)
    (cycles : list Cycle) (c : Cycle) (E : string) :
  let v := if restarting then restartVariant else notifyVariant in
  NoDup (podNames (listing c)) ->
  (1 <= remediations E (checkPods v cfg c (run v cfg cycles ∅).1).2)%nat ->
  classifiedStuck v cfg c E /\
  exists c0, c0 ∈ cycles /\ classifiedStuck v cfg c0 E /\
             pendingTimeout cfg <= time.Sub (now c) (now c0).
Proof.
  intros v Hnodup Hcall.
  assert (Hv : callsOnce v).
  { subst v. destruct restarting;
      [apply restartVariant_callsOnce | apply notifyVariant_callsOnce]. }
  destruct (remediation_inv v cfg c _ E Hv Hnodup Hcall)
    as (Hstuck & _ & T0 & Hrec & Hge).
  split; [exact Hstuck |].
  apply run_provenance in Hrec as [Hrec | (c0 & Hin & Hc0 & ->)];
    [by rewrite lookup_empty in Hrec |].
  by exists c0.
Qed.

Lemma remediation_needs_two_verdicts_witness :
  let c := ScenarioA.cycle [ScenarioA.p1] None 20 in
  classifiedStuck restartVariant ScenarioA.cfg c "p1" /\
  exists c0, c0 ∈ ScenarioA.cycles None 20 /\
             classifiedStuck restartVariant ScenarioA.cfg c0 "p1" /\
             pendingTimeout ScenarioA.cfg <= time.Sub (now c) (now c0).
Proof.
  intros c.
  apply (remediation_needs_two_verdicts true ScenarioA.cfg
           (ScenarioA.cycles None 20) c "p1").
  - apply NoDup_singleton.
  - vm_compute. apply le_n.
Defined.

(** X13. Remediations of one name are spaced out: between a cycle that makes
    a remediation call for a name and a later cycle that makes another (both
    listings with distinct names) lies a cycle that found the pod stuck anew,
    and the later call comes at least the timeout after that cycle; a failed
    call is thus never repeated within the timeout. *)
Theorem remediations_are_spaced (restarting : bool) (cfg : Config)
    (first : Cycle) (mid : list Cycle) (last : Cycle) (m : Tracker)
    (E : string) :
  let v := if restarting then restartVariant else notifyVariant in
  NoDup (podNames (listing first)) ->
  NoDup (podNames (listing last)) ->
  (1 <= remediations E (checkPods v cfg first m).2)%nat ->
  (1 <= remediations E
          (checkPods v cfg last (run v cfg (first :: mid) m).1).2)%nat ->
  exists c0, c0 ∈ mid /\ classifiedStuck v cfg c0 E /\
             pendingTimeout cfg <= time.Sub (now last) (now c0).
Proof.
  intros v Hfirst Hlast Hcall1 Hcall2.
  assert (Hv : callsOnce v).
  { subst v. destruct restarting;
      [apply restartVariant_callsOnce | apply notifyVariant_callsOnce]. }
  destruct (remediation_inv v cfg first m E Hv Hfirst Hcall1)
    as (_ & Hgone & _).
  destruct (remediation_inv v cfg last _ E Hv Hlast Hcall2)
    as (_ & _ & T0 & Hrec & Hge).
  cbn [run fst] in Hrec.
  apply run_provenance in Hrec as [Hrec | (c0 & Hin & Hc0 & ->)];
    [congruence |].
  by exists c0.
Qed.

Lemma remediations_are_spaced_witness :
  let m : Tracker := {[ "p1" := 330 * time.Second ]} in
  let first := ScenarioA.cycle [ScenarioA.p1] (Some "forbidden") 21 in
  let mid := map (ScenarioA.cycle [ScenarioA.p1] None) (seq 22 10) in
  let last := ScenarioA.cycle [ScenarioA.p1] None 32 in
  exists c0, c0 ∈ mid /\
             classifiedStuck restartVariant ScenarioA.cfg c0 "p1" /\
             pendingTimeout ScenarioA.cfg <= time.Sub (now last) (now c0).
Proof.
  intros m first mid last.
  apply (remediations_are_spaced true ScenarioA.cfg first mid last m "p1").
  - apply NoDup_singleton.
  - apply NoDup_singleton.
  - vm_compute. apply le_n.
  - vm_compute. apply le_n.
Defined.

(** ** The order of the listing *)

Lemma names_determine_pod (items : list corev1.Pod) p q :
  NoDup (podNames items) -> p ∈ items -> q ∈ items ->
  corev1.Name p = corev1.Name q -> p = q.
Proof.
  intros Hnodup Hp Hq Hname.
  apply list_elem_of_lookup in Hp as [i Hi], Hq as [j Hj].
  assert (i = j); [| congruence].
  apply (NoDup_lookup (podNames items) i j (corev1.Name p)); [done | |];
    unfold podNames; rewrite list_lookup_fmap; [by rewrite Hi |].
  rewrite Hj. cbn. by rewrite Hname.
Qed.

(** X14. With distinct names and one clock reading for the whole cycle, the
    tracker a cycle leaves does not depend on the order in which the
    orchestrator lists the pods. *)
Theorem tracker_independent_of_listing_order (v : Variant) (cfg : Config)
    (c c' : Cycle) (items items' : list corev1.Pod) (m : Tracker) :
  listResult c = inl items ->
  listResult c' = inl items' ->
  items ≡ₚ items' ->
  NoDup (podNames items) ->
  now c = now c' ->
  (forall i j, clockAt c i = clockAt c' j) ->
  (checkPods v cfg c m).1 = (checkPods v cfg c' m).1.
Proof.
  intros Hlist Hlist' Hperm Hnodup Hnow Hclock.
  assert (Hnames : podNames items ≡ₚ podNames items')
    by (unfold podNames; by rewrite Hperm).
  assert (Hnodup' : NoDup (podNames items')) by (by rewrite <- Hnames).
  apply map_eq. intros E.
  destruct (decide (E ∈ podNames items)) as [Hin | Hout].
  - assert (Hin' : E ∈ podNames items') by (by rewrite <- Hnames).
    destruct (listing_split _ _ Hnodup Hin)
      as (pre & pod & post & -> & Hname & Hpre & Hpost).
    destruct (listing_split _ _ Hnodup' Hin')
      as (pre' & pod' & post' & -> & Hname' & Hpre' & Hpost').
    assert (pod' = pod) as ->.
    { apply (names_determine_pod (pre ++ pod :: post)); [done | | | congruence].
      - rewrite Hperm. apply elem_of_app. right. by left.
      - apply elem_of_app. right. by left. }
    subst E.
    destruct (checkPods_at v cfg c pre pod post m Hlist Hpre Hpost) as [-> _].
    destruct (checkPods_at v cfg c' pre' pod post' m Hlist' Hpre' Hpost')
      as [-> _].
    by rewrite Hnow, (Hclock (length pre) (length pre')).
  - assert (Hout' : E ∉ podNames items') by (by rewrite <- Hnames).
    rewrite !checkPods_lookup_absent; [done | |]; unfold listing;
      by rewrite ?Hlist, ?Hlist'.
Qed.

Lemma tracker_independent_of_listing_order_witness :
  let healthy :=
    {| corev1.Name := "p2"; corev1.Namespace := "default";
       corev1.CreationTimestamp := 0;
       corev1.Status := {| corev1.Phase := corev1.PodRunning;
                           corev1.ContainerStatuses := [] |} |} in
  let m : Tracker := {[ "p2" := 60 * time.Second ]} in
  let reading : ScenarioA.Readings :=
    fun k _ j => Z.of_nat k * (30 * time.Second) + 1000 + Z.of_nat j in
  (checkPods restartVariant ScenarioA.cfg
     (ScenarioA.cycleAt reading [ScenarioA.p1; healthy] None 11) m).1
  = (checkPods restartVariant ScenarioA.cfg
       (ScenarioA.cycleAt reading [healthy; ScenarioA.p1] None 11) m).1.
Proof.
  intros healthy m reading.
  apply (tracker_independent_of_listing_order restartVariant ScenarioA.cfg
           _ _ [ScenarioA.p1; healthy] [healthy; ScenarioA.p1] m).
  - reflexivity.
  - reflexivity.
  - apply Permutation_swap.
  - apply NoDup_cons. split; [| apply NoDup_singleton].
    intros Hin. apply list_elem_of_singleton in Hin. discriminate Hin.
  - reflexivity.
  - reflexivity.
Defined.

(** ** More on the configuration *)

Lemma settingDefault_pos s : 0 < settingDefault s.
Proof. by destruct s. Qed.

(** X15. The validated settings are positive: the timeout and the interval
    read from the environment are greater than zero whenever the variable is
    unset or empty, or [strconv.Atoi] rejects it, or the accepted number of
    units fits the 64-bit duration (only an overflowing product can come out
    zero or negative). *)
Theorem setting_positive (s : Setting) (env : os.Environ) :
  let str := os.Getenv env (settingVariable s) in
  str = "" \/ (strconv.Atoi str).2 <> None \/
  (strconv.Atoi str).1 * settingUnit s <= time.maxDuration ->
  0 < (readSetting s env).1.
Proof.
  intros str Hcase.
  pose proof (settingDefault_pos s) as Hdefault.
  pose proof (settingUnit_pos s) as Hunit.
  destruct (decide (str = "")) as [Hempty | Hne];
    [by rewrite readSetting_default |].
  rewrite readSetting_set by exact Hne. fold str.
  destruct (bool_decide ((strconv.Atoi str).2 <> None)) eqn:Herr;
    [exact Hdefault |].
  apply bool_decide_eq_false in Herr.
  destruct (Z.leb_spec (strconv.Atoi str).1 0); cbn [orb fst];
    [exact Hdefault |].
  destruct Hcase as [? | [? | Hfit]]; [done | done |].
  unfold time.mul. rewrite wrap64_exact; [nia |].
  unfold time.minDuration. nia.
Qed.

Lemma setting_positive_witness :
  0 < (readSetting CheckIntervalSetting {[ "CHECK_INTERVAL" := "45" ]}).1.
Proof.
  apply (setting_positive CheckIntervalSetting {[ "CHECK_INTERVAL" := "45" ]}).
  right. right. vm_compute. discriminate.
Defined.

Lemma decimal_pos_digits n :
  0 < n ->
  exists c rest,
    decimal n = String c rest /\ strconv.isSign c = false /\
    strconv.fastDigits 0 (String c rest) = Some n.
Proof.
  intros Hn. destruct n as [| p | p]; [lia | | lia].
  unfold decimal. cbn [Z.to_int NilZero.string_of_int].
  pose proof (Unsigned.to_uint_nonnil p) as Hnil.
  rewrite string_of_uint_nonnil by exact Hnil.
  destruct (string_of_uint_head _ Hnil) as (c & rest & Hs & Hc).
  exists c, rest. split; [exact Hs |]. split; [exact Hc |].
  rewrite <- Hs. apply fastDigits_to_uint.
Qed.

Lemma fastDigits_leading_zeros k s :
  strconv.fastDigits 0 (Nat.iter k (String "0") s) = strconv.fastDigits 0 s.
Proof. induction k as [| k IH]; [reflexivity | exact IH]. Qed.

(** X16. The settings accept more than plain numerals: a leading plus sign,
    or any number of leading zeros, before the decimal numeral of a positive
    [n] whose duration fits gives [n] units and no warning, like the numeral
    itself. *)
Theorem setting_accepts_plus_and_zeros (s : Setting) (env : os.Environ)
    (n : Z) (k : nat) :
  let str := os.Getenv env (settingVariable s) in
  0 < n ->
  n * settingUnit s <= time.maxDuration ->
  str = String "+" (decimal n) \/ str = Nat.iter k (String "0") (decimal n) ->
  readSetting s env = (n * settingUnit s, []).
Proof.
  intros str Hpos Hfit Hstr.
  pose proof (settingUnit_pos s) as Hunit.
  destruct (decimal_pos_digits n Hpos) as (c & rest & Hdec & Hc & Hd).
  assert (Hn : n < 2 ^ 63) by (unfold time.maxDuration in Hfit; nia).
  assert (Hparse : strconv.Atoi str = (n, None)).
  { rewrite Atoi_ParseInt. destruct Hstr as [-> | ->].
    - rewrite Hdec.
      rewrite (ParseInt_digits "+" (String c rest) c rest n);
        [| reflexivity | exact Hd].
      cbv zeta. change (Ascii.eqb "+" "-") with false. cbn [negb andb].
      destruct (Z.leb_spec (2 ^ 63) n); [lia | reflexivity].
    - rewrite <- Atoi_ParseInt.
      destruct k as [| k].
      + cbn [Nat.iter]. by apply Atoi_decimal; lia.
      + change (strconv.Atoi
                  (String "0" (Nat.iter k (String "0") (decimal n)))
                = (n, None)).
        rewrite (Atoi_unsigned "0" _ n); [| reflexivity |].
        * destruct (Z.leb_spec (2 ^ 63) n); [lia | reflexivity].
        * change (strconv.fastDigits 0
                    (Nat.iter (S k) (String "0") (decimal n)) = Some n).
          by rewrite fastDigits_leading_zeros, Hdec. }
  assert (Hne : str <> "").
  { destruct Hstr as [-> | ->]; [done |].
    destruct k; cbn [Nat.iter]; [apply decimal_nonempty | done]. }
  rewrite readSetting_set by exact Hne. fold str. rewrite Hparse. cbn [fst snd].
  rewrite bool_decide_false by (intros H; by apply H).
  destruct (Z.leb_spec n 0); [lia |]. cbn [orb].
  unfold time.mul. rewrite wrap64_exact; [reflexivity |].
  unfold time.minDuration. lia.
Qed.

Lemma setting_accepts_plus_and_zeros_witness :
  readSetting PendingTimeoutSetting {[ "PENDING_TIMEOUT" := "007" ]}
  = (7 * time.Minute, []) /\
  readSetting CheckIntervalSetting {[ "CHECK_INTERVAL" := "+45" ]}
  = (45 * time.Second, []).
Proof.
  split.
  - apply (setting_accepts_plus_and_zeros PendingTimeoutSetting
             {[ "PENDING_TIMEOUT" := "007" ]} 7 2).
    + lia.
    + vm_compute. discriminate.
    + right. reflexivity.
  - apply (setting_accepts_plus_and_zeros CheckIntervalSetting
             {[ "CHECK_INTERVAL" := "+45" ]} 45 0).
    + lia.
    + vm_compute. discriminate.
    + left. reflexivity.
Defined.
